(** * Modern_USA_News: the collection, scoring and selection engine

    A shallow embedding of [rss_config.py], [rss_collector.py] and
    [news_ranker.py], and the properties of the ingestion / scoring /
    selection pipeline proved over it.

    Modelling conventions.
    - Python [str] values are [string]s of 8-bit characters; [str.lower]
      is modelled on ASCII letters, which is what it does on ASCII text.
    - Python [int] is [Z]; [len] is [Z.of_nat (length _)].
    - The [articles] table is the list of its rows in rowid order, together
      with the AUTOINCREMENT counter kept in [sqlite_sequence].
    - [collected_time] holds [datetime.now().isoformat()]; the table compares
      it as text, which for ISO timestamps is the chronological order, so a
      timestamp is a [Z] counting microseconds.
    - The 0/1 INTEGER columns are [bool]. *)

From Stdlib Require Import ZArith List Bool Ascii String Lia Permutation
  Sorted.
Import ListNotations.

Local Open Scope string_scope.
Local Open Scope Z_scope.

(* ================================================================== *)
(** ** Text primitives *)

Module Text.

(** [c.lower()] for one ASCII character. *)
Definition lower_ascii (c : ascii) : ascii :=
  let n := N_of_ascii c in
  if (N.leb 65 n && N.leb n 90)%bool then ascii_of_N (n + 32) else c.

(** [s.lower()]. *)
Fixpoint lower (s : string) : string :=
  match s with
  | EmptyString => EmptyString
  | String c s' => String (lower_ascii c) (lower s')
  end.

(** [kw in text]: [kw] occurs in [text] as a contiguous substring. *)
Fixpoint contains (kw text : string) : bool :=
  (String.prefix kw text
   || match text with
      | EmptyString => false
      | String _ rest => contains kw rest
      end)%bool.

(** The number of positions of [text] at which [kw] starts; overlapping
    occurrences are counted separately. *)
Fixpoint occurrences (kw text : string) : Z :=
  match text with
  | EmptyString => 0
  | String _ rest =>
      (if String.prefix kw text then 1 else 0) + occurrences kw rest
  end.

(** [len(l)] *)
Definition len {A : Type} (l : list A) : Z := Z.of_nat (List.length l).

(** [f"{a} {b}"] *)
Definition join_space (a b : string) : string := a ++ " " ++ b.

End Text.
Import Text.

(* ================================================================== *)
(** ** Configuration tables ([rss_config.py]) *)

Module Config.

(** One entry of [PRIORITY_KEYWORDS]: [{"keywords": [...], "score": n}]. *)
Record Tier := { keywords : list string; score : Z }.

(** Dictionaries keep their declaration order, which the code iterates
    in; they are association lists in that order. *)
Definition PRIORITY_KEYWORDS : list (string * Tier) :=
  [ ("critical",
     {| keywords :=
          ["president"; "biden"; "trump"; "white house"; "congress";
           "senate"; "supreme court"; "election"; "vote"; "pentagon";
           "war"; "russia"; "china"; "nuclear"; "terrorism"; "shooting";
           "bomb"; "coup"];
        score := 10 |});
    ("high",
     {| keywords :=
          ["economy"; "inflation"; "federal reserve"; "stock market";
           "unemployment"; "gas prices"; "nato"; "military"; "fbi";
           "justice department"; "governor"; "mayor"; "law"; "bill";
           "impeach"; "investigation"];
        score := 7 |});
    ("medium",
     {| keywords :=
          ["sports"; "nfl"; "nba"; "super bowl"; "olympics"; "technology";
           "apple"; "google"; "meta"; "tesla"; "space"; "nasa"; "health";
           "covid"; "weather"; "hurricane"; "earthquake"; "wildfire"];
        score := 5 |}) ].

Definition US_KEYWORDS : list string :=
  ["usa"; "u.s."; "united states"; "america"; "american"; "washington";
   "new york"; "california"; "texas"; "florida"; "biden"; "trump";
   "congress"; "senate"; "house"; "governor"; "mayor"; "state"; "federal";
   "fbi"; "cia"; "pentagon"; "white house"].

Definition EXCLUSION_KEYWORDS : list string :=
  ["kardashian"; "celebrity"; "hollywood"; "gossip"; "dating";
   "relationship"; "instagram model"; "tiktok"; "viral video"; "meme";
   "horoscope"; "zodiac"; "quiz"; "sponsored"; "advertisement"].

Definition CATEGORY_KEYWORDS : list (string * list string) :=
  [ ("Politics",
     ["president"; "congress"; "senate"; "election"; "vote"; "bill";
      "law"; "politics"; "biden"; "trump"; "governor"; "democrat";
      "republican"]);
    ("Economy",
     ["economy"; "inflation"; "stock"; "market"; "fed"; "federal reserve";
      "unemployment"; "jobs"; "gdp"; "recession"; "trade"]);
    ("Technology",
     ["tech"; "technology"; "ai"; "artificial intelligence"; "apple";
      "google"; "meta"; "tesla"; "space"; "nasa"; "innovation"]);
    ("Sports",
     ["nfl"; "nba"; "mlb"; "nhl"; "super bowl"; "world series";
      "olympics"; "sports"; "game"; "championship"]);
    ("Justice",
     ["crime"; "shooting"; "court"; "supreme court"; "justice"; "police";
      "trial"; "verdict"; "fbi"; "investigation"]);
    ("International",
     ["war"; "russia"; "china"; "ukraine"; "nato"; "military"; "conflict";
      "foreign policy"; "diplomacy"]);
    ("Health",
     ["health"; "covid"; "pandemic"; "vaccine"; "hospital"; "medical"]);
    ("Environment",
     ["climate"; "weather"; "hurricane"; "wildfire"; "earthquake";
      "flood"; "environment"; "epa"]) ].

Definition MAX_STORIES_PER_DAY : Z := 5.
Definition ARCHIVE_DAYS : Z := 7.

End Config.
Import Config.

(* ================================================================== *)
(** ** Classifier, scorer and relevance filter ([RSSCollector]) *)

Module Annotate.

(** [any(keyword in text_lower for keyword in kws)] *)
Definition any_keyword (kws : list string) (text_lower : string) : bool :=
  existsb (fun keyword => contains keyword text_lower) kws.

Definition _is_us_related (text : string) : bool :=
  any_keyword US_KEYWORDS (lower text).

Definition _should_exclude (text : string) : bool :=
  any_keyword EXCLUSION_KEYWORDS (lower text).

(** The inner loop of [_calculate_priority] over one tier's keywords. *)
Definition score_tier (text : string) (data : Tier) (score0 : Z) : Z :=
  fold_left
    (fun score keyword =>
       if contains keyword text then score + Config.score data else score)
    (keywords data) score0.

(** The outer loop, over an arbitrary tier table. *)
Definition score_tiers (tiers : list (string * Tier)) (text : string) : Z :=
  fold_left (fun score '(_, data) => score_tier text data score) tiers 0.

Definition _calculate_priority (title description : string) : Z :=
  let text := lower (join_space title description) in
  score_tiers PRIORITY_KEYWORDS text.

(** [sum(1 for keyword in keywords if keyword in text)] *)
Definition keyword_count (text : string) (kws : list string) : Z :=
  fold_left Z.add
    (map (fun _ => 1) (filter (fun keyword => contains keyword text) kws))
    0.

(** The dictionary [category_scores], in insertion order. *)
Fixpoint category_scores (table : list (string * list string))
         (text : string) : list (string * Z) :=
  match table with
  | [] => []
  | (category, kws) :: table' =>
      let count := keyword_count text kws in
      if 0 <? count
      then (category, count) :: category_scores table' text
      else category_scores table' text
  end.

(** [max(d, key=d.get)] over the remaining items, [best] being the
    maximum so far: a later item replaces it only when strictly larger. *)
Fixpoint max_by_score (best : string * Z) (items : list (string * Z))
  : string :=
  match items with
  | [] => fst best
  | item :: items' =>
      if snd best <? snd item
      then max_by_score item items'
      else max_by_score best items'
  end.

Definition detect_in (table : list (string * list string))
           (text : string) : string :=
  match category_scores table text with
  | [] => "General"
  | first :: others => max_by_score first others
  end.

Definition _detect_category (title description : string) : string :=
  let text := lower (join_space title description) in
  detect_in CATEGORY_KEYWORDS text.

(** The scorer as the specification words it: every occurrence of a
    keyword counts. *)
Definition occurrence_score (title description : string) : Z :=
  let text := lower (join_space title description) in
  fold_right Z.add 0
    (map (fun '(_, data) =>
            Config.score data
            * fold_right Z.add 0
                (map (fun keyword => occurrences keyword text)
                     (keywords data)))
         PRIORITY_KEYWORDS).

(** The number of keywords of [kws] that occur in [text]. *)
Definition hits (text : string) (kws : list string) : Z :=
  len (filter (fun keyword => contains keyword text) kws).

(** The sum the scorer computes over a tier table: each tier's weight
  times the number of its keywords present in the text. *)
Definition presence_score (tiers : list (string * Tier)) (text : string)
: Z :=
fold_right Z.add 0
  (map (fun '(_, data) => score data * hits text (keywords data)) tiers).

(** The largest value [presence_score] can take. *)
Definition score_ceiling (tiers : list (string * Tier)) : Z :=
fold_right Z.add 0
  (map (fun '(_, data) => score data * len (keywords data)) tiers).

End Annotate.
Import Annotate.

(* ================================================================== *)
(** ** The [articles] table *)

Module Store.

(** [published_time]: the feed's own text, or the ingestion clock when
    the feed gives none. *)
Inductive PubTime :=
| FromFeed (text : string)
| AtIngest (clock : Z).

(** One row of [articles]. *)
Record Row := {
  id : Z;
  article_hash : string;
  title : string;
  description : string;
  link : string;
  source : string;
  category : string;
  published_time : PubTime;
  collected_time : Z;
  priority_score : Z;
  is_us_related : bool;
  is_excluded : bool;
  selected_for_post : bool;
  posted : bool
}.

(** The table in rowid order and the largest rowid ever handed out. *)
Record Store := { rows : list Row; seq : Z }.

Definition empty : Store := {| rows := []; seq := 0 |}.

(** The largest rowid in use, 0 for the empty table. *)
Definition max_rowid (rs : list Row) : Z :=
  fold_right (fun r m => Z.max (id r) m) 0 rs.

Definition with_rows (s : Store) (rs : list Row) : Store :=
  {| rows := rs; seq := seq s |}.

Definition set_selected (b : bool) (r : Row) : Row :=
  {| id := id r; article_hash := article_hash r; title := title r;
     description := description r; link := link r; source := source r;
     category := category r; published_time := published_time r;
     collected_time := collected_time r;
     priority_score := priority_score r;
     is_us_related := is_us_related r; is_excluded := is_excluded r;
     selected_for_post := b; posted := posted r |}.

Definition set_posted (b : bool) (r : Row) : Row :=
  {| id := id r; article_hash := article_hash r; title := title r;
     description := description r; link := link r; source := source r;
     category := category r; published_time := published_time r;
     collected_time := collected_time r;
     priority_score := priority_score r;
     is_us_related := is_us_related r; is_excluded := is_excluded r;
     selected_for_post := selected_for_post r; posted := b |}.

(** The lifecycle state the two flags encode. *)
Inductive SelectionState := Unselected | Selected | Posted.

Definition selection_state (r : Row) : SelectionState :=
  if posted r then Posted
  else if selected_for_post r then Selected
  else Unselected.

Definition pubtime_eq_dec (a b : PubTime) : {a = b} + {a <> b}.
Proof. decide equality; [apply string_dec | apply Z.eq_dec]. Defined.

(** Equality of two rows as dictionaries. *)
Definition row_eq_dec (a b : Row) : {a = b} + {a <> b}.
Proof.
  decide equality;
    solve [ apply bool_dec | apply Z.eq_dec | apply string_dec
          | apply pubtime_eq_dec ].
Defined.

(** [a in l] *)
Definition row_in (a : Row) (l : list Row) : bool :=
  existsb (fun b => if row_eq_dec a b then true else false) l.

(** [x in ids] *)
Definition id_in (x : Z) (ids : list Z) : bool :=
  existsb (Z.eqb x) ids.

(** [UPDATE articles SET ... WHERE cond]: rows keep their place. *)
Definition update_where (cond : Row -> bool) (f : Row -> Row)
           (s : Store) : Store :=
  with_rows s (map (fun r => if cond r then f r else r) (rows s)).

(** [DELETE FROM articles WHERE cond] *)
Definition delete_where (cond : Row -> bool) (s : Store) : Store :=
  with_rows s (filter (fun r => negb (cond r)) (rows s)).

(** Microseconds in [timedelta(hours=h)] and [timedelta(days=d)]. *)
Definition hours_us (h : Z) : Z := h * 3600000000.
Definition days_us (d : Z) : Z := d * 86400000000.

End Store.
Import Store.

(* ================================================================== *)
(** ** Ingestion ([RSSCollector.collect_feed], [_clean_old_articles]) *)

Module Collector.

(** What the loop body extracts from one feed entry: the stripped title,
    [description or summary], the stripped link and
    [published or updated]. *)
Record Entry := {
  e_title : string;
  e_description : string;
  e_link : string;
  e_published : string
}.

Section Hashing.

(** [hashlib.md5(b).hexdigest()], a function of the bytes hashed. *)
Variable md5 : string -> string.

Definition _generate_hash (title link : string) : string :=
  let combined := lower (title ++ "|" ++ link) in
  md5 combined.

(** [INSERT OR IGNORE INTO articles (...) VALUES (...)]: the row [r]
    (its [id] not yet chosen) is stored under a fresh rowid unless a
    row with its [article_hash] exists, in which case the statement
    does nothing to the table.  AUTOINCREMENT picks one more than the
    largest rowid the table has or ever had, and the counter moves to it
    in both cases.  Returns the store and [cursor.rowcount]. *)
Definition insert_or_ignore (r : Row) (s : Store) : Store * Z :=
  let rowid := Z.max (seq s) (max_rowid (rows s)) + 1 in
  if existsb (fun x => String.eqb (article_hash x) (article_hash r))
             (rows s)
  then ({| rows := rows s; seq := rowid |}, 0)
  else
    ({| rows := rows s ++
                [ {| id := rowid; article_hash := article_hash r;
                     title := title r; description := description r;
                     link := link r; source := source r;
                     category := category r;
                     published_time := published_time r;
                     collected_time := collected_time r;
                     priority_score := priority_score r;
                     is_us_related := is_us_related r;
                     is_excluded := is_excluded r;
                     selected_for_post := false; posted := false |} ];
        seq := rowid |}, 1).

(** The row [collect_feed] builds for an entry; [clock_pub] and
    [clock_col] are the two readings of [datetime.now()]. *)
Definition build_row (source_name : string) (clock_pub clock_col : Z)
           (e : Entry) : Row :=
  let title := e_title e in
  let description := e_description e in
  let link := e_link e in
  let article_hash := _generate_hash title link in
  let full_text := join_space title description in
  let is_us := _is_us_related full_text in
  let is_excluded := _should_exclude full_text in
  let priority_score := _calculate_priority title description in
  let category := _detect_category title description in
  let published_time :=
    if String.eqb (e_published e) ""
    then AtIngest clock_pub else FromFeed (e_published e) in
  {| id := 0; article_hash := article_hash; title := title;
     description := description; link := link; source := source_name;
     category := category; published_time := published_time;
     collected_time := clock_col; priority_score := priority_score;
     is_us_related := is_us; is_excluded := is_excluded;
     selected_for_post := false; posted := false |}.

(** Lines 116-150 of [collect_feed]: annotate the entry and upsert it. *)
Definition upsert (source_name : string) (clock_pub clock_col : Z)
           (e : Entry) (s : Store) : Store * Z :=
  insert_or_ignore (build_row source_name clock_pub clock_col e) s.

(** The whole loop body: entries without title or link are skipped. *)
Definition collect_entry (source_name : string) (clock_pub clock_col : Z)
           (e : Entry) (s : Store) : Store * Z :=
  if (String.eqb (e_title e) "" || String.eqb (e_link e) "")%bool
  then (s, 0)
  else upsert source_name clock_pub clock_col e s.

End Hashing.

(** [_clean_old_articles], [clock] being [datetime.now()]. *)
Definition _clean_old_articles (clock : Z) (s : Store) : Store :=
  let cutoff_date := clock - days_us ARCHIVE_DAYS in
  delete_where
    (fun r => (collected_time r <? cutoff_date) && negb (posted r))%bool s.

End Collector.
Import Collector.

(* ================================================================== *)
(** ** Selection and lifecycle ([NewsRanker]) *)

Module Ranker.

(** The [WHERE] clause of the candidate query. *)
Definition eligible (cutoff_time : Z) (r : Row) : bool :=
  (is_us_related r && negb (is_excluded r) && negb (selected_for_post r)
   && (cutoff_time <=? collected_time r))%bool.

(** [a] comes strictly before [b] under
    [ORDER BY priority_score DESC, collected_time DESC]. *)
Definition outranks (a b : Row) : bool :=
  ((priority_score b <? priority_score a)
   || ((priority_score a =? priority_score b)
       && (collected_time b <? collected_time a)))%bool.

(** Stable insertion of [x] in front of a ranked list: rows that tie on
    both keys stay in rowid order. *)
Fixpoint insert_by (before : Row -> Row -> bool) (x : Row)
         (l : list Row) : list Row :=
  match l with
  | [] => [x]
  | y :: l' => if before y x then y :: insert_by before x l' else x :: l
  end.

Definition sort_by (before : Row -> Row -> bool) (l : list Row)
  : list Row :=
  fold_right (insert_by before) [] l.

(** [SELECT * FROM articles WHERE ... ORDER BY ... LIMIT 50] *)
Definition query_candidates (cutoff_time : Z) (s : Store) : list Row :=
  firstn 50 (sort_by outranks (filter (eligible cutoff_time) (rows s))).

(** The candidate list [get_top_stories] works on: the query over the
    last [hours] hours and, when it is empty, the query over the last 48
    hours.  [clock] and [clock'] are the two readings of
    [datetime.now()]. *)
Definition get_candidates (clock clock' hours : Z) (s : Store)
  : list Row :=
  let cutoff_time := clock - hours_us hours in
  let candidates := query_candidates cutoff_time s in
  match candidates with
  | [] =>
      let cutoff_time := clock' - hours_us 48 in
      query_candidates cutoff_time s
  | _ :: _ => candidates
  end.

(** How the first loop of [_select_diverse_stories] ends. *)
Inductive FirstPass :=
| Returned (selected : list Row)
| Exhausted (selected : list Row) (used_categories : list string).

(** [category in used_categories] *)
Definition category_used (c : string) (used_categories : list string)
  : bool :=
  existsb (String.eqb c) used_categories.

(** The first pass: one story per category, returning as soon as
    [count] stories are selected. *)
Fixpoint first_pass (count : Z) (candidates selected : list Row)
         (used_categories : list string) : FirstPass :=
  match candidates with
  | [] => Exhausted selected used_categories
  | article :: rest =>
      if category_used (category article) used_categories
      then first_pass count rest selected used_categories
      else
        let selected := (selected ++ [article])%list in
        let used_categories := category article :: used_categories in
        if count <=? len selected
        then Returned selected
        else first_pass count rest selected used_categories
  end.

(** [a.priority_score > b.priority_score], the order of
    [remaining.sort(key=..., reverse=True)]; the sort is stable. *)
Definition higher_priority (a b : Row) : bool :=
  priority_score b <? priority_score a.

(** [while len(selected) < count and remaining:
       selected.append(remaining.pop(0))] *)
Fixpoint fill (count : Z) (selected remaining : list Row) : list Row :=
  match remaining with
  | [] => selected
  | a :: remaining' =>
      if len selected <? count
      then fill count (selected ++ [a])%list remaining'
      else selected
  end.

Definition _select_diverse_stories (candidates : list Row) (count : Z)
  : list Row :=
  if len candidates <=? count then candidates
  else
    match first_pass count candidates [] [] with
    | Returned selected => selected
    | Exhausted selected _ =>
        let remaining :=
          filter (fun a => negb (row_in a selected)) candidates in
        let remaining := sort_by higher_priority remaining in
        fill count selected remaining
    end.

(** [UPDATE articles SET selected_for_post = 1 WHERE id IN (...)] *)
Definition _mark_as_selected (article_ids : list Z) (s : Store) : Store :=
  update_where (fun r => id_in (id r) article_ids) (set_selected true) s.

(** The reading half of [get_top_stories]: query and choose. *)
Definition select_stories (clock clock' count hours : Z) (s : Store)
  : list Row :=
  let candidates := get_candidates clock clock' hours s in
  _select_diverse_stories candidates count.

(** The writing half: [if selected: self._mark_as_selected(...)]. *)
Definition mark_stories (selected : list Row) (s : Store) : Store :=
  match selected with
  | [] => s
  | _ :: _ => _mark_as_selected (map id selected) s
  end.

Definition get_top_stories (clock clock' count hours : Z) (s : Store)
  : list Row * Store :=
  let selected := select_stories clock clock' count hours s in
  (selected, mark_stories selected s).

(** [UPDATE articles SET posted = 1 WHERE id IN (...)] *)
Definition mark_as_posted (article_ids : list Z) (s : Store) : Store :=
  update_where (fun r => id_in (id r) article_ids) (set_posted true) s.

(** [UPDATE articles SET selected_for_post = 0 WHERE posted = 0] *)
Definition reset_selections (s : Store) : Store :=
  update_where (fun r => negb (posted r)) (set_selected false) s.

End Ranker.
Import Ranker.

(* ================================================================== *)
(** ** Store invariants and operation sequences *)

Module Engine.

(** The schema's constraints: [id] is the primary key and [article_hash]
    is UNIQUE. *)
Definition unique_ids (s : Store) : Prop := NoDup (map id (rows s)).
Definition unique_hashes (s : Store) : Prop :=
  NoDup (map article_hash (rows s)).

Definition valid (s : Store) : Prop :=
  unique_ids s /\ unique_hashes s.


(** The number of rows the candidate query's [WHERE] clause accepts. *)
Definition eligible_count (cutoff_time : Z) (s : Store) : Z :=
  len (filter (eligible cutoff_time) (rows s)).

(** The store-mutating calls of the two classes. *)
Inductive Op :=
| CollectEntry (source_name : string) (clock_pub clock_col : Z) (e : Entry)
| TopStories (clock clock' count hours : Z)
| MarkPosted (article_ids : list Z)
| ResetSelections
| CleanOld (clock : Z).

Definition is_clean (op : Op) : bool :=
  match op with CleanOld _ => true | _ => false end.

Section Run.

Variable md5 : string -> string.

Definition perform (s : Store) (op : Op) : Store :=
  match op with
  | CollectEntry source_name clock_pub clock_col e =>
      fst (collect_entry md5 source_name clock_pub clock_col e s)
  | TopStories clock clock' count hours =>
      snd (get_top_stories clock clock' count hours s)
  | MarkPosted article_ids => mark_as_posted article_ids s
  | ResetSelections => reset_selections s
  | CleanOld clock => _clean_old_articles clock s
  end.

Definition run (ops : list Op) (s : Store) : Store :=
  fold_left perform ops s.

(** The stores that calls of the code can produce from the empty table. *)
Definition reachable (s : Store) : Prop :=
  exists ops, s = run ops Store.empty.

End Run.

(** Two invocations of [get_top_stories] that overlap: the read of each
    (the [SELECT], on a connection closed before the choice is made) runs
    before the mark of either (the [UPDATE] of [_mark_as_selected], on a
    connection of its own). *)
Definition overlapping_top_stories (clock clock' count hours : Z)
           (s : Store) : list Row * list Row * Store :=
  let selected_a := select_stories clock clock' count hours s in
  let selected_b := select_stories clock clock' count hours s in
  let s := mark_stories selected_a s in
  let s := mark_stories selected_b s in
  (selected_a, selected_b, s).

(** The number of distinct categories among some rows. *)
Definition distinct_categories (l : list Row) : Z :=
  len (nodup string_dec (map category l)).

(** [has_hash h s]: some row of [s] carries the fingerprint [h]. *)
Definition has_hash (h : string) (s : Store) : bool :=
  existsb (fun x => String.eqb (article_hash x) h) (rows s).

(** The rows of [extra] are each the first row of their category in
    [candidates], of categories outside [used] and different from one
    another. *)
Definition firsts (candidates : list Row) (used : list string)
           (extra : list Row) : Prop :=
  Forall (fun r =>
            ~ In (category r) used
            /\ find (fun x => String.eqb (category x) (category r)) candidates
               = Some r) extra
  /\ NoDup (map category extra).

(** Resets and purges, in any order. *)
Definition maintenance_only (ops : list Op) : Prop :=
  Forall (fun op => match op with
                    | ResetSelections | CleanOld _ => True
                    | _ => False
                    end) ops.

End Engine.
Import Engine.

(* ================================================================== *)
(** ** Sample tables *)

Module Samples.

(** A relevant, not excluded, unselected, unposted row. *)
Definition fresh_row (i : Z) (cat : string) (score collected : Z) : Row :=
  {| id := i;
     article_hash := String (ascii_of_N (Z.to_N i)) EmptyString;
     title := "t"; description := "d"; link := "l"; source := "CNN";
     category := cat; published_time := AtIngest collected;
     collected_time := collected; priority_score := score;
     is_us_related := true; is_excluded := false;
     selected_for_post := false; posted := false |}.

Definition table (rs : list Row) : Store :=
  {| rows := rs; seq := len rs |}.

(** The clock of the samples, 1000 hours after the epoch. *)
Definition noon : Z := hours_us 1000.

(** Rows [first .. first + n - 1] of one category and score, collected
    one hour before [noon]. *)
Definition block (first : nat) (n : nat) (cat : string) (score : Z)
  : list Row :=
  map (fun i => fresh_row (Z.of_nat i) cat score (noon - hours_us 1))
      (List.seq first n).

(** One row never selected. *)
Definition one_unselected : Store :=
  table [fresh_row 1 "Politics" 10 (noon - hours_us 1)].

(** Sixty eligible rows. *)
Definition sixty : Store := table (block 1 60 "Politics" 10).

(** Fifty high-scoring politics rows, then one sports and one economy
    row of lower score. *)
Definition lopsided : Store :=
  table (block 1 50 "Politics" 20
         ++ [fresh_row 51 "Sports" 5 (noon - hours_us 1);
             fresh_row 52 "Economy" 5 (noon - hours_us 1)]).

(** One eligible row collected thirty hours before [noon]. *)
Definition stale : Store :=
  table [fresh_row 1 "Politics" 10 (noon - hours_us 30)].

(** Scenario 2 of the specification: Politics 20, 15, 10 and
    Sports 12, 8. *)
Definition scenario2 : Store :=
  table [fresh_row 1 "Politics" 20 (noon - hours_us 1);
         fresh_row 2 "Politics" 15 (noon - hours_us 1);
         fresh_row 3 "Politics" 10 (noon - hours_us 1);
         fresh_row 4 "Sports" 12 (noon - hours_us 1);
         fresh_row 5 "Sports" 8 (noon - hours_us 1)].


End Samples.
Import Samples.

(* ================================================================== *)
(** ** Feeds, statistics and the daily summary *)

Module Feed.

(** One entry of a parsed feed together with the two readings of
    [datetime.now()] taken while it is processed. *)
Record Timed := { entry : Entry; at_pub : Z; at_col : Z }.



(** [sum(stats.values())] *)
Definition sum_values (d : list (string * Z)) : Z :=
  fold_left (fun acc kv => acc + snd kv) d 0.

Section Collecting.

Variable md5 : string -> string.

(** The [for entry in feed.entries] loop of [collect_feed], [added_count]
    being the counter. *)
Fixpoint collect_entries (source_name : string) (entries : list Timed)
         (s : Store) (added_count : Z) : Store * Z :=
  match entries with
  | [] => (s, added_count)
  | t :: rest =>
      let '(s', rowcount) :=
        collect_entry md5 source_name (at_pub t) (at_col t) (entry t) s in
      collect_entries source_name rest s'
        (if 0 <? rowcount then added_count + 1 else added_count)
  end.

(** [collect_feed]; the feed is [None] when [feedparser.parse] raises,
    which the outer [except] turns into a count of 0. *)
Definition collect_feed (feed : option (list Timed)) (source_name : string)
           (s : Store) : Store * Z :=
  match feed with
  | None => (s, 0)
  | Some entries => collect_entries source_name entries s 0
  end.

(** What the network returns for a feed URL. *)
Variable fetch : string -> option (list Timed).




End Collecting.

(** [get_article_count] *)
Definition get_article_count (s : Store) : Z :=
  len (filter (fun r => negb (is_excluded r)) (rows s)).

(** The dictionary [get_stats] returns. *)
Record Stats := {
  total_articles : Z;
  us_related : Z;
  excluded : Z;
  active_sources : Z
}.

Definition get_stats (s : Store) : Stats :=
  {| total_articles := len (rows s);
     us_related := len (filter is_us_related (rows s));
     excluded := len (filter is_excluded (rows s));
     active_sources := len (nodup string_dec (map source (rows s))) |}.

(** [DATE(t)]: the calendar day of a timestamp, timestamps being counted
    from a midnight. *)
Definition date_of (t : Z) : Z := t / days_us 1.

(** The dictionary [get_daily_summary] returns; the groups of the
    [GROUP BY] are listed by first occurrence. *)
Record DailySummary := {
  total_selected : Z;
  categories : list (string * Z)
}.

Definition selected_on (today : Z) (r : Row) : bool :=
  (selected_for_post r && (date_of (collected_time r) =? today))%bool.

Definition get_daily_summary (clock : Z) (s : Store) : DailySummary :=
  let today := date_of clock in
  let chosen := filter (selected_on today) (rows s) in
  {| total_selected := len chosen;
     categories :=
       map (fun c =>
              (c, len (filter (fun r => String.eqb (category r) c) chosen)))
           (nodup string_dec (map category chosen)) |}.

End Feed.
Import Feed.

(* ================================================================== *)
(** ** Predicates of the further properties *)

Module Facts.

(** A row with both lifecycle flags cleared: what is left are the columns
    an article is ingested with. *)
Definition content (r : Row) : Row := set_selected false (set_posted false r).

(** The derived columns of a row are the annotations of its title and
    description, and it has a title and a link. *)
Definition annotated (md5 : string -> string) (r : Row) : Prop :=
  article_hash r = _generate_hash md5 (title r) (link r)
  /\ category r = _detect_category (title r) (description r)
  /\ priority_score r = _calculate_priority (title r) (description r)
  /\ is_us_related r = _is_us_related (join_space (title r) (description r))
  /\ is_excluded r = _should_exclude (join_space (title r) (description r))
  /\ title r <> "" /\ link r <> "".

(** The labels the classifier can produce. *)
Definition category_labels : list string :=
  (map fst CATEGORY_KEYWORDS ++ ["General"])%list.

(** [b] does not come before [a] in the order of the candidate query. *)
Definition ranked (a b : Row) : Prop := outranks b a = false.

(** The daily cycle's selection step: [reset_selections] followed by
    [get_top_stories]. *)
Definition reselect (clock clock' count hours : Z) (s : Store)
  : list Row * Store :=
  get_top_stories clock clock' count hours (reset_selections s).

(** The three [UPDATE] statements as one shape. *)
Definition flag_update (op : Op) (s : Store)
  : option ((Row -> bool) * (Row -> Row)) :=
  match op with
  | TopStories clock clock' count hours =>
      Some (fun r =>
              id_in (id r)
                    (map id (select_stories clock clock' count hours s)),
            set_selected true)
  | MarkPosted article_ids =>
      Some (fun r => id_in (id r) article_ids, set_posted true)
  | ResetSelections => Some (fun r => negb (posted r), set_selected false)
  | _ => None
  end.

(** What holds of every row of a table the code built. *)
Definition well_kept (md5 : string -> string) (s : Store) : Prop :=
  0 <= seq s
  /\ Forall (fun r => 1 <= id r <= seq s /\ annotated md5 r) (rows s).

(** The operations one pass over a feed's entries amounts to. *)
Definition entry_ops (source_name : string) (entries : list Timed)
  : list Op :=
  map (fun t => CollectEntry source_name (at_pub t) (at_col t) (entry t))
      entries.

(** The operations [collect_all] amounts to, [fetch] being what the
    network returns for each feed URL. *)
Definition feed_ops (feed : option (list Timed)) (source_name : string)
  : list Op :=
  match feed with
  | None => []
  | Some entries => entry_ops source_name entries
  end.



(** The rows the purge at [clock] keeps. *)
Definition retained (clock : Z) (r : Row) : bool :=
  (posted r || (clock - days_us ARCHIVE_DAYS <=? collected_time r))%bool.

(** Only stories that had been selected were ever marked as posted. *)
Definition posted_were_selected (s : Store) : Prop :=
  forall r, In r (rows s) -> posted r = true -> selected_for_post r = true.


End Facts.
Import Facts.

(* ================================================================== *)
(** * Properties *)

(** ** Text and list facts *)

Lemma lower_app (a b : string) : lower (a ++ b) = (lower a ++ lower b)%string.
Proof.
  induction a as [|c a IH]; simpl; [reflexivity | now rewrite IH].
Qed.

Lemma lower_join_space (a b : string) :
  lower (join_space a b) = join_space (lower a) (lower b).
Proof.
  unfold join_space. now rewrite !lower_app.
Qed.

Lemma len_nonneg {A : Type} (l : list A) : 0 <= len l.
Proof. unfold len. lia. Qed.

Lemma len_app {A : Type} (l1 l2 : list A) :
  len (l1 ++ l2) = len l1 + len l2.
Proof. unfold len. rewrite length_app. lia. Qed.

Lemma len_cons {A : Type} (x : A) (l : list A) : len (x :: l) = 1 + len l.
Proof. unfold len. simpl List.length. lia. Qed.

Lemma hits_bounds (text : string) (kws : list string) :
  0 <= hits text kws <= len kws.
Proof.
  unfold hits, len. split; [lia|].
  apply inj_le, filter_length_le.
Qed.

Lemma hits_cons (text kw : string) (kws : list string) :
  hits text (kw :: kws)
  = (if contains kw text then 1 else 0) + hits text kws.
Proof.
  unfold hits. simpl. destruct (contains kw text);
    [rewrite len_cons | ]; lia.
Qed.

(** ** The scorer *)

Lemma score_tier_sum (text : string) (w : Z) (kws : list string) (s0 : Z) :
  score_tier text {| keywords := kws; score := w |} s0
  = s0 + w * hits text kws.
Proof.
  unfold score_tier. cbn [keywords score].
  revert s0. induction kws as [|kw kws IH]; intro s0.
  - unfold hits, len. simpl. lia.
  - cbn [fold_left]. rewrite IH, hits_cons.
    destruct (contains kw text); lia.
Qed.

Lemma score_tiers_from (text : string) (tiers : list (string * Tier))
      (s0 : Z) :
  fold_left (fun sc '(_, data) => score_tier text data sc) tiers s0
  = s0 + presence_score tiers text.
Proof.
  revert s0. induction tiers as [|[level [kws w]] tiers IH]; intro s0.
  - unfold presence_score. simpl. lia.
  - cbn [fold_left]. rewrite IH, score_tier_sum.
    unfold presence_score. cbn [map fold_right keywords score]. lia.
Qed.

Lemma score_tiers_presence (tiers : list (string * Tier)) (text : string) :
  score_tiers tiers text = presence_score tiers text.
Proof. unfold score_tiers. now rewrite score_tiers_from. Qed.

Lemma presence_score_bounds (tiers : list (string * Tier)) (text : string) :
  Forall (fun e => 0 <= score (snd e)) tiers ->
  0 <= presence_score tiers text <= score_ceiling tiers.
Proof.
  unfold presence_score, score_ceiling.
  induction 1 as [|[level [kws w]] tiers Hw _ IH]; simpl in *; [lia|].
  pose proof (hits_bounds text kws). nia.
Qed.

Lemma presence_score_mono (tiers : list (string * Tier)) (t1 t2 : string) :
  Forall (fun e => 0 <= score (snd e)) tiers ->
  Forall (fun e => hits t1 (keywords (snd e)) <= hits t2 (keywords (snd e)))
         tiers ->
  presence_score tiers t1 <= presence_score tiers t2.
Proof.
  unfold presence_score.
  induction 1 as [|[level [kws w]] tiers Hw _ IH]; intro Hh; simpl in *;
    [lia|].
  inversion Hh; subst. simpl in *. specialize (IH H2). nia.
Qed.

Lemma priority_weights_nonneg :
  Forall (fun e => 0 <= score (snd e)) PRIORITY_KEYWORDS.
Proof. repeat constructor; simpl; lia. Qed.

(** ** The classifier *)

Lemma keyword_count_hits (text : string) (kws : list string) :
  keyword_count text kws = hits text kws.
Proof.
  unfold keyword_count, hits, len.
  generalize (filter (fun keyword => contains keyword text) kws) as l.
  assert (G : forall (l : list string) a,
             fold_left Z.add (map (fun _ => 1) l) a
             = a + Z.of_nat (List.length l)).
  { induction l as [|x l IH]; intro a; simpl fold_left; simpl map.
    - simpl. lia.
    - cbn [fold_left]. rewrite IH. simpl List.length. lia. }
  intro l. rewrite G. lia.
Qed.

Section Classifier.

Variable text : string.

Let h (e : string * list string) : Z := hits text (snd e).

(** Where the maximum so far sits in the table: [pre] holds strictly
    smaller counts, [mid] counts that are not larger. *)
Lemma max_by_score_split (table pre mid : list (string * list string))
      (c : string) (kws : list string) :
  0 < hits text kws ->
  Forall (fun e => h e < hits text kws) pre ->
  Forall (fun e => h e <= hits text kws) mid ->
  exists pre' c' kws' post',
    (pre ++ (c, kws) :: mid ++ table = pre' ++ (c', kws') :: post')%list
    /\ max_by_score (c, hits text kws) (category_scores table text) = c'
    /\ 0 < hits text kws'
    /\ Forall (fun e => h e < hits text kws') pre'
    /\ Forall (fun e => h e <= hits text kws') post'.
Proof.
  revert pre mid c kws.
  induction table as [|[c1 k1] table IH]; intros pre mid c kws Hpos Hpre Hmid.
  - exists pre, c, kws, mid. rewrite app_nil_r. simpl. auto.
  - cbn [category_scores]. rewrite keyword_count_hits.
    destruct (0 <? hits text k1) eqn:Hk1.
    + cbn [max_by_score snd].
      destruct (hits text kws <? hits text k1) eqn:Hlt.
      * apply Z.ltb_lt in Hk1, Hlt.
        destruct (IH (pre ++ (c, kws) :: mid)%list [] c1 k1)
          as (pre' & c' & kws' & post' & E & R & P & F1 & F2).
        -- assumption.
        -- apply Forall_app; split.
           ++ eapply Forall_impl; [|exact Hpre]. simpl. intros; lia.
           ++ constructor; [unfold h; simpl; lia|].
              eapply Forall_impl; [|exact Hmid]. simpl. intros; lia.
        -- constructor.
        -- exists pre', c', kws', post'. repeat split; try assumption.
           rewrite <- E. simpl. now rewrite <- app_assoc.
      * apply Z.ltb_ge in Hlt.
        destruct (IH pre (mid ++ [(c1, k1)])%list c kws)
          as (pre' & c' & kws' & post' & E & R & P & F1 & F2).
        -- assumption.
        -- assumption.
        -- apply Forall_app; split; [assumption|].
           constructor; [unfold h; simpl; lia | constructor].
        -- exists pre', c', kws', post'. repeat split; try assumption.
           rewrite <- E. now rewrite <- app_assoc.
    + apply Z.ltb_ge in Hk1.
      destruct (IH pre (mid ++ [(c1, k1)])%list c kws)
        as (pre' & c' & kws' & post' & E & R & P & F1 & F2).
      * assumption.
      * assumption.
      * apply Forall_app; split; [assumption|].
        constructor; [unfold h; simpl; lia | constructor].
      * exists pre', c', kws', post'. repeat split; try assumption.
        rewrite <- E. now rewrite <- app_assoc.
Qed.

(** [detect_in] returns the first category of largest positive count,
    and ["General"] when every count is zero. *)
Lemma detect_in_argmax (table : list (string * list string)) :
  (Forall (fun e => h e = 0) table /\ detect_in table text = "General")
  \/ (exists pre c kws post,
         table = (pre ++ (c, kws) :: post)%list
         /\ detect_in table text = c
         /\ 0 < hits text kws
         /\ Forall (fun e => h e < hits text kws) pre
         /\ Forall (fun e => h e <= hits text kws) post).
Proof.
  unfold detect_in.
  assert (G : forall zeros,
             Forall (fun e => h e = 0) zeros ->
             (Forall (fun e => h e = 0) (zeros ++ table)
              /\ category_scores table text = [])
             \/ (exists pre c kws post,
                    (zeros ++ table = pre ++ (c, kws) :: post)%list
                    /\ match category_scores table text with
                       | [] => "General"
                       | first :: others => max_by_score first others
                       end = c
                    /\ 0 < hits text kws
                    /\ Forall (fun e => h e < hits text kws) pre
                    /\ Forall (fun e => h e <= hits text kws) post)).
  { induction table as [|[c1 k1] table' IH]; intros zeros Hz.
    - left. rewrite app_nil_r. auto.
    - cbn [category_scores]. rewrite keyword_count_hits.
      destruct (0 <? hits text k1) eqn:Hk1.
      + right. apply Z.ltb_lt in Hk1.
        destruct (max_by_score_split table' zeros [] c1 k1)
          as (pre' & c' & kws' & post' & E & R & P & F1 & F2).
        * assumption.
        * eapply Forall_impl; [|exact Hz]. simpl. intros; lia.
        * constructor.
        * exists pre', c', kws', post'. simpl in E. auto.
      + apply Z.ltb_ge in Hk1.
        pose proof (proj1 (hits_bounds text k1)) as Hk0.
        destruct (IH (zeros ++ [(c1, k1)])%list) as [[F E]|X].
        * apply Forall_app; split; [assumption|].
          constructor; [unfold h; simpl; lia | constructor].
        * left. rewrite <- app_assoc in F. auto.
        * right. rewrite <- app_assoc in X. exact X. }
  destruct (G [] (Forall_nil _)) as [[F E]|X].
  - left. simpl in F. rewrite E. auto.
  - right. exact X.
Qed.

End Classifier.

(** ** C8: the classifier *)

(** C8. For every title and description, with [text] the lower-cased
    ["{title} {description}"]: either no keyword of any category occurs in
    [text] and the classifier returns ["General"], or it returns a
    configured category [c] whose count of keywords present in [text] is
    positive, at least the count of every other category, and strictly
    larger than the count of every category declared before [c] (so a tie
    goes to the earliest declaration).  The result depends on the input
    only up to letter case. *)
Theorem detect_category_argmax (title description : string) :
  ((Forall (fun e => hits (lower (join_space title description)) (snd e) = 0)
           CATEGORY_KEYWORDS
    /\ _detect_category title description = "General")
   \/ (exists pre c kws post,
          CATEGORY_KEYWORDS = (pre ++ (c, kws) :: post)%list
          /\ _detect_category title description = c
          /\ 0 < hits (lower (join_space title description)) kws
          /\ Forall (fun e =>
                       hits (lower (join_space title description)) (snd e)
                       < hits (lower (join_space title description)) kws)
                    pre
          /\ Forall (fun e =>
                       hits (lower (join_space title description)) (snd e)
                       <= hits (lower (join_space title description)) kws)
                    post))
  /\ (forall title' description',
         lower title' = lower title ->
         lower description' = lower description ->
         _detect_category title' description'
         = _detect_category title description).
Proof.
  split.
  - unfold _detect_category.
    apply (detect_in_argmax (lower (join_space title description))
                            CATEGORY_KEYWORDS).
  - intros title' description' Ht Hd. unfold _detect_category.
    now rewrite !lower_join_space, Ht, Hd.
Qed.

Lemma detect_category_argmax_witness :
  _detect_category "SENATE passes BILL on nasa" "Vote"
  = _detect_category "Senate passes bill on NASA" "vote".
Proof.
  apply (proj2 (detect_category_argmax "Senate passes bill on NASA" "vote"));
    vm_compute; reflexivity.
Defined.

(** ** C2: the scorer *)

(** C2, as stated, fails: the text ["war war"] holds the critical keyword
    ["war"] twice, weight 10; the sum over occurrences is 20, the scorer
    returns 10. *)
Lemma calculate_priority_ignores_repeats :
  occurrence_score "war war" "" = 20
  /\ _calculate_priority "war war" "" = 10
  /\ _calculate_priority "war war" "" <> occurrence_score "war war" "".
Proof. vm_compute. repeat split; discriminate. Qed.

(** C2, amended.  For every title and description the scorer returns the
    sum over all priority tiers of the tier weight times the number of the
    tier's keywords that are present in the lower-cased text, each keyword
    counting once however often it occurs.  With the configured tiers the
    score lies between 0 and 382, and it is monotonic in the per-tier
    numbers of keywords present. *)
Theorem calculate_priority_presence (title description : string) :
  _calculate_priority title description
  = presence_score PRIORITY_KEYWORDS (lower (join_space title description))
  /\ 0 <= _calculate_priority title description <= 382
  /\ (forall title' description',
         Forall (fun e =>
                   hits (lower (join_space title description))
                        (keywords (snd e))
                   <= hits (lower (join_space title' description'))
                           (keywords (snd e)))
                PRIORITY_KEYWORDS ->
         _calculate_priority title description
         <= _calculate_priority title' description').
Proof.
  unfold _calculate_priority. rewrite score_tiers_presence.
  split; [reflexivity|]. split.
  - pose proof (presence_score_bounds PRIORITY_KEYWORDS
                  (lower (join_space title description))
                  priority_weights_nonneg) as B.
    replace (score_ceiling PRIORITY_KEYWORDS) with 382 in B
      by (vm_compute; reflexivity).
    exact B.
  - intros title' description' H. rewrite score_tiers_presence.
    apply presence_score_mono; [exact priority_weights_nonneg | exact H].
Qed.

Lemma calculate_priority_presence_witness :
  _calculate_priority "War" "" <= _calculate_priority "war on inflation" "".
Proof.
  apply (proj2 (proj2 (calculate_priority_presence "War" ""))).
  repeat constructor; apply Z.leb_le; vm_compute; reflexivity.
Defined.

(** ** Running the selector on the samples *)

Example scenario2_selection :
  map id (fst (get_top_stories noon noon 3 24 scenario2)) = [1; 4; 2].
Proof. vm_compute. reflexivity. Qed.

Example scenario2_marked :
  map selected_for_post
      (rows (snd (get_top_stories noon noon 3 24 scenario2)))
  = [true; true; false; true; false].
Proof. vm_compute. reflexivity. Qed.

(** ** Lifecycle: [mark_as_posted], [reset_selections], retention *)

Lemma id_in_In (x : Z) (ids : list Z) : id_in x ids = true <-> In x ids.
Proof.
  unfold id_in. rewrite existsb_exists. split.
  - intros (y & Hy & E). apply Z.eqb_eq in E. now subst.
  - intro H. exists x. split; [assumption | apply Z.eqb_refl].
Qed.

Lemma set_posted_state (r : Row) : selection_state (set_posted true r) = Posted.
Proof. reflexivity. Qed.

Lemma set_posted_twice (r : Row) :
  set_posted true (set_posted true r) = set_posted true r.
Proof. reflexivity. Qed.

Lemma Forall2_map_self {A : Type} (R : A -> A -> Prop) (f : A -> A)
      (l : list A) :
  (forall x, R x (f x)) -> Forall2 R l (map f l).
Proof. intro H. induction l; simpl; constructor; auto. Qed.

Lemma posted_survives_update (cond : Row -> bool) (f : Row -> Row)
      (s : Store) (r : Row) :
  (forall x, posted x = true -> cond x = true -> f x = x) ->
  In r (rows s) -> posted r = true -> In r (rows (update_where cond f s)).
Proof.
  intros Hf Hin Hp. unfold update_where. simpl.
  apply in_map_iff. exists r. split; [|assumption].
  destruct (cond r) eqn:E; [now apply Hf | reflexivity].
Qed.

Lemma posted_of_state (r : Row) :
  selection_state r = Posted <-> posted r = true.
Proof.
  unfold selection_state.
  destruct (posted r), (selected_for_post r); split; congruence.
Qed.

(** C1, as stated, fails: a row that was never selected is given to
    [mark_as_posted]; it does not stay untouched, it becomes Posted. *)
Lemma mark_as_posted_touches_unselected :
  map selection_state (rows one_unselected) = [Unselected]
  /\ map selection_state (rows (mark_as_posted [1] one_unselected))
     = [Posted]
  /\ rows (mark_as_posted [1] one_unselected) <> rows one_unselected.
Proof. vm_compute. repeat split; discriminate. Qed.

(** C1, amended.  For every list of article ids, [mark_as_posted] sets the
    [posted] flag of every row whose id is in the list, whatever state the
    row is in (a Selected row and an Unselected row alike become Posted),
    changes no other column of it, and leaves every row whose id is not in
    the list untouched; no row is added or removed, and calling it again
    with the same ids changes nothing. *)
Theorem mark_as_posted_sets_flag (article_ids : list Z) (s : Store) :
  Forall2 (fun r r' =>
             (In (id r) article_ids ->
              r' = set_posted true r /\ selection_state r' = Posted)
             /\ (~ In (id r) article_ids -> r' = r))
          (rows s) (rows (mark_as_posted article_ids s))
  /\ mark_as_posted article_ids (mark_as_posted article_ids s)
     = mark_as_posted article_ids s.
Proof.
  split.
  - unfold mark_as_posted, update_where. simpl.
    apply Forall2_map_self. intro r.
    destruct (id_in (id r) article_ids) eqn:E.
    + split; [auto | intro N; apply id_in_In in E; contradiction].
    + split; [intro H; apply id_in_In in H; congruence | reflexivity].
  - unfold mark_as_posted, update_where, with_rows. simpl. f_equal.
    rewrite map_map. apply map_ext. intro r.
    destruct (id_in (id r) article_ids) eqn:E; simpl; rewrite E; reflexivity.
Qed.

Lemma mark_as_posted_sets_flag_witness :
  Forall2 (fun r r' =>
             (In (id r) [1; 2] ->
              r' = set_posted true r /\ selection_state r' = Posted)
             /\ (~ In (id r) [1; 2] -> r' = r))
          (rows scenario2) (rows (mark_as_posted [1; 2] scenario2)).
Proof. exact (proj1 (mark_as_posted_sets_flag [1; 2] scenario2)). Defined.

Lemma posted_survives_reset (s : Store) (r : Row) :
  In r (rows s) -> posted r = true -> In r (rows (reset_selections s)).
Proof.
  apply posted_survives_update. intros x Hp Hc.
  rewrite Hp in Hc. discriminate.
Qed.

Lemma posted_survives_clean (clock : Z) (s : Store) (r : Row) :
  In r (rows s) -> posted r = true ->
  In r (rows (_clean_old_articles clock s)).
Proof.
  intros Hin Hp. unfold _clean_old_articles, delete_where. simpl.
  apply filter_In. split; [assumption|].
  rewrite Hp. simpl. now rewrite andb_false_r.
Qed.

(** C6.  A row in state Posted is still in the table, unchanged in every
    column, after [reset_selections], after [_clean_old_articles] at any
    clock reading (so whatever its age), and after any sequence of the
    two; and [reset_selections] turns every Selected row into an
    Unselected one, changing nothing else, and leaves the Unselected and
    Posted rows as they are. *)
Theorem posted_is_terminal (md5 : string -> string) (s : Store) :
  (forall r, In r (rows s) -> selection_state r = Posted ->
             In r (rows (reset_selections s))
             /\ (forall clock, In r (rows (_clean_old_articles clock s)))
             /\ (forall ops, maintenance_only ops ->
                             In r (rows (run md5 ops s))))
  /\ Forall2 (fun r r' =>
                (selection_state r = Selected ->
                 r' = set_selected false r
                 /\ selection_state r' = Unselected)
                /\ (selection_state r <> Selected -> r' = r))
             (rows s) (rows (reset_selections s)).
Proof.
  split.
  - intros r Hin Hst. apply posted_of_state in Hst.
    split; [now apply posted_survives_reset|].
    split; [intro clock; now apply posted_survives_clean|].
    intros ops Hops. revert s Hin.
    induction Hops as [|op ops Hop _ IH]; intros s Hin; [exact Hin|].
    unfold run in *. cbn [fold_left]. apply IH.
    destruct op; try contradiction; cbn [perform].
    + now apply posted_survives_reset.
    + now apply posted_survives_clean.
  - unfold reset_selections, update_where. simpl.
    apply Forall2_map_self. intro r. unfold selection_state.
    destruct r as [i h t d l so c p ct ps us ex sel po].
    destruct po, sel; simpl; split; intros; try congruence; auto.
Qed.

Lemma posted_is_terminal_witness :
  In (set_posted true (fresh_row 1 "Politics" 10 0))
     (rows (run (fun x => x) [CleanOld noon; ResetSelections]
                (table [set_posted true (fresh_row 1 "Politics" 10 0)]))).
Proof.
  apply (proj1 (posted_is_terminal (fun x => x)
                  (table [set_posted true (fresh_row 1 "Politics" 10 0)]))).
  - left. reflexivity.
  - reflexivity.
  - repeat constructor.
Defined.

(** ** The dedup store *)

Lemma has_hash_In (h : string) (s : Store) :
  has_hash h s = true <-> In h (map article_hash (rows s)).
Proof.
  unfold has_hash. rewrite existsb_exists, in_map_iff. split.
  - intros (x & Hx & E). apply String.eqb_eq in E. eauto.
  - intros (x & E & Hx). exists x. split; [assumption|].
    now apply String.eqb_eq.
Qed.


Section Dedup.

Variable md5 : string -> string.

Lemma insert_present (r : Row) (s : Store) :
  has_hash (article_hash r) s = true ->
  insert_or_ignore r s
  = ({| rows := rows s; seq := Z.max (seq s) (max_rowid (rows s)) + 1 |}, 0).
Proof.
  unfold insert_or_ignore, has_hash. intro H. now rewrite H.
Qed.


Lemma max_rowid_bound (rs : list Row) (r : Row) :
  In r rs -> id r <= max_rowid rs.
Proof.
  induction rs as [|x rs IH]; simpl; [contradiction|].
  intros [->|H]; [lia | specialize (IH H); lia].
Qed.

Lemma insert_valid (r : Row) (s : Store) :
  valid s -> valid (fst (insert_or_ignore r s)).
Proof.
  intros (Hid & Hh). unfold insert_or_ignore.
  destruct (existsb _ (rows s)) eqn:E; simpl; [split; assumption|].
  unfold valid, unique_ids, unique_hashes in *. simpl.
  rewrite !map_app. simpl. split.
  - apply NoDup_app; [assumption | repeat constructor; auto |].
    intros x Hx [Hy|[]]. subst x.
    apply in_map_iff in Hx. destruct Hx as (y & Ey & Hy).
    apply max_rowid_bound in Hy. lia.
  - apply NoDup_app; [assumption | repeat constructor; auto |].
    intros x Hx [Hy|[]]. subst x.
    assert (X : has_hash (article_hash r) s = true)
      by now apply has_hash_In.
    unfold has_hash in X. congruence.
Qed.

Lemma update_keys (cond : Row -> bool) (f : Row -> Row) (s : Store) :
  (forall r, id (f r) = id r /\ article_hash (f r) = article_hash r) ->
  map id (rows (update_where cond f s)) = map id (rows s)
  /\ map article_hash (rows (update_where cond f s))
     = map article_hash (rows s).
Proof.
  intro Hf. unfold update_where. simpl. rewrite !map_map.
  split; apply map_ext; intro r; destruct (cond r); try reflexivity;
    apply Hf.
Qed.

Lemma update_valid (cond : Row -> bool) (f : Row -> Row) (s : Store) :
  (forall r, id (f r) = id r /\ article_hash (f r) = article_hash r) ->
  valid s -> valid (update_where cond f s).
Proof.
  intros Hf (Hid & Hh).
  destruct (update_keys cond f s Hf) as [E1 E2].
  unfold valid, unique_ids, unique_hashes. rewrite E1, E2.
  split; assumption.
Qed.

Lemma filter_keeps_distinct_keys {K : Type} (key : Row -> K)
      (keep : Row -> bool) (rs : list Row) :
  NoDup (map key rs) -> NoDup (map key (filter keep rs)).
Proof.
  intro distinct. induction rs as [|r rs IH]; simpl in *; [constructor|].
  apply NoDup_cons_iff in distinct. destruct distinct as [fresh distinct].
  destruct (keep r); simpl; [|now apply IH].
  apply NoDup_cons; [|now apply IH].
  rewrite in_map_iff. intros (r' & same & kept).
  apply filter_In in kept. apply fresh.
  rewrite in_map_iff. exists r'. tauto.
Qed.

Lemma delete_valid (cond : Row -> bool) (s : Store) :
  valid s -> valid (delete_where cond s).
Proof.
  intros (Hid & Hh).
  unfold valid, unique_ids, unique_hashes, delete_where in *.
  simpl. split; now apply filter_keeps_distinct_keys.
Qed.

Lemma mark_stories_update (selected : list Row) (s : Store) :
  mark_stories selected s
  = update_where (fun r => id_in (id r) (map id selected))
                 (set_selected true) s.
Proof.
  destruct selected as [|a l]; [|reflexivity].
  unfold mark_stories, update_where, with_rows. simpl.
  rewrite map_id. now destruct s.
Qed.

Lemma perform_valid (op : Op) (s : Store) :
  valid s -> valid (perform md5 s op).
Proof.
  intro V. destruct op; cbn [perform].
  - unfold collect_entry, upsert.
    destruct (_ || _)%bool; [exact V | now apply insert_valid].
  - unfold get_top_stories. cbn [snd]. rewrite mark_stories_update.
    apply update_valid; [intro r; split; reflexivity | exact V].
  - apply update_valid; [intro r; split; reflexivity | exact V].
  - apply update_valid; [intro r; split; reflexivity | exact V].
  - now apply delete_valid.
Qed.

Lemma run_valid (ops : list Op) (s : Store) :
  valid s -> valid (run md5 ops s).
Proof.
  revert s. induction ops as [|op ops IH]; intros s V; [exact V|].
  unfold run in *. cbn [fold_left]. apply IH. now apply perform_valid.
Qed.

Lemma reachable_valid (s : Store) : reachable md5 s -> valid s.
Proof.
  intros [ops ->]. apply run_valid.
  repeat split; constructor.
Qed.



Lemma build_row_hash (source_name : string) (clock_pub clock_col : Z)
      (e : Entry) :
  article_hash (build_row md5 source_name clock_pub clock_col e)
  = _generate_hash md5 (e_title e) (e_link e).
Proof. reflexivity. Qed.

End Dedup.

(** C10.  When a row with the incoming entry's fingerprint is already in
    the table, the upsert leaves the table's rows exactly as they were,
    every column of every row, whatever description, source, clock
    readings and derived annotations the incoming entry carries, and
    reports [rowcount] 0.  When no row has the fingerprint, the upsert
    appends exactly one row, Unselected, holding the entry's values under
    a rowid no row has, and leaves the rows already there as they were. *)
Theorem upsert_frame (md5 : string -> string) (source_name : string)
        (clock_pub clock_col : Z) (e : Entry) (s : Store) :
  (In (_generate_hash md5 (e_title e) (e_link e))
      (map article_hash (rows s)) ->
   rows (fst (upsert md5 source_name clock_pub clock_col e s)) = rows s
   /\ snd (upsert md5 source_name clock_pub clock_col e s) = 0)
  /\ (~ In (_generate_hash md5 (e_title e) (e_link e))
        (map article_hash (rows s)) ->
      exists r,
        rows (fst (upsert md5 source_name clock_pub clock_col e s))
        = (rows s ++ [r])%list
        /\ snd (upsert md5 source_name clock_pub clock_col e s) = 1
        /\ article_hash r = _generate_hash md5 (e_title e) (e_link e)
        /\ selection_state r = Unselected
        /\ ~ In (id r) (map id (rows s))
        /\ title r = e_title e /\ description r = e_description e
        /\ link r = e_link e /\ source r = source_name
        /\ collected_time r = clock_col).
Proof.
  split.
  - intro H. apply has_hash_In in H. unfold upsert.
    rewrite insert_present by (now rewrite build_row_hash).
    split; reflexivity.
  - intro H. unfold upsert, insert_or_ignore.
    destruct (existsb _ (rows s)) eqn:E.
    + exfalso. apply H. apply has_hash_In. exact E.
    + eexists. cbn [fst snd rows]. split; [reflexivity|].
      do 3 (split; [reflexivity|]). split; [|repeat split].
      cbn [id]. rewrite in_map_iff. intros (x & Ex & Hx).
      apply max_rowid_bound in Hx. lia.
Qed.

Lemma upsert_frame_witness :
  rows (fst (upsert (fun b => b) "NBC News" 9 9
               {| e_title := "Senate Passes Bill";
                  e_description := "a different description";
                  e_link := "http://x/1"; e_published := "" |}
               (fst (upsert (fun b => b) "CNN" 7 7
                       {| e_title := "Senate Passes Bill";
                          e_description := "first";
                          e_link := "http://x/1";
                          e_published := "Mon" |}
                       Store.empty))))
  = rows (fst (upsert (fun b => b) "CNN" 7 7
                 {| e_title := "Senate Passes Bill";
                    e_description := "first";
                    e_link := "http://x/1";
                    e_published := "Mon" |}
                 Store.empty)).
Proof.
  apply (proj1 (upsert_frame (fun b => b) "NBC News" 9 9
                  {| e_title := "Senate Passes Bill";
                     e_description := "a different description";
                     e_link := "http://x/1"; e_published := "" |}
                  (fst (upsert (fun b => b) "CNN" 7 7
                          {| e_title := "Senate Passes Bill";
                             e_description := "first";
                             e_link := "http://x/1";
                             e_published := "Mon" |}
                          Store.empty)))).
  vm_compute. left. reflexivity.
Defined.

(** ** Ranking and the candidate query *)

Lemma insert_by_perm (before : Row -> Row -> bool) (x : Row) (l : list Row) :
  Permutation (insert_by before x l) (x :: l).
Proof.
  induction l as [|y l IH]; simpl; [apply Permutation_refl|].
  destruct (before y x); [|apply Permutation_refl].
  eapply perm_trans; [apply perm_skip, IH | apply perm_swap].
Qed.

Lemma sort_by_perm (before : Row -> Row -> bool) (l : list Row) :
  Permutation (sort_by before l) l.
Proof.
  unfold sort_by. induction l as [|x l IH]; simpl; [constructor|].
  eapply perm_trans; [apply insert_by_perm | now apply perm_skip].
Qed.

Lemma sort_by_len (before : Row -> Row -> bool) (l : list Row) :
  len (sort_by before l) = len l.
Proof.
  unfold len. now rewrite (Permutation_length (sort_by_perm before l)).
Qed.

Lemma firstn_In {A : Type} (n : nat) (l : list A) (x : A) :
  In x (firstn n l) -> In x l.
Proof.
  revert n. induction l as [|y l IH]; intros [|n] H; simpl in *;
    try contradiction.
  destruct H as [H|H]; [now left | right; eauto].
Qed.

Lemma query_len (cutoff_time : Z) (s : Store) :
  len (query_candidates cutoff_time s)
  = Z.min 50 (eligible_count cutoff_time s).
Proof.
  unfold query_candidates, eligible_count.
  rewrite <- (sort_by_len outranks (filter _ _)).
  unfold len. rewrite length_firstn. lia.
Qed.

Lemma query_incl (cutoff_time : Z) (s : Store) (r : Row) :
  In r (query_candidates cutoff_time s) ->
  In r (rows s) /\ eligible cutoff_time r = true.
Proof.
  unfold query_candidates. intro H.
  apply firstn_In in H.
  apply (Permutation_in _ (sort_by_perm outranks _)) in H.
  now apply filter_In in H.
Qed.

Lemma query_nodup (cutoff_time : Z) (s : Store) :
  unique_ids s -> NoDup (query_candidates cutoff_time s).
Proof.
  unfold unique_ids, query_candidates. intro H.
  apply NoDup_map_inv in H.
  assert (N : NoDup (sort_by outranks (filter (eligible cutoff_time) (rows s)))).
  { eapply Permutation_NoDup;
      [apply Permutation_sym, sort_by_perm | now apply NoDup_filter]. }
  revert N. generalize (sort_by outranks (filter (eligible cutoff_time) (rows s))).
  generalize 50%nat. intros n l. revert n.
  induction l as [|x l IH]; intros [|n] ND; simpl; try constructor.
  - inversion ND; subst. intro H1. apply firstn_In in H1. contradiction.
  - inversion ND; subst. now apply IH.
Qed.

Lemma get_candidates_cases (clock clock' hours : Z) (s : Store) :
  (query_candidates (clock - hours_us hours) s <> []
   /\ get_candidates clock clock' hours s
      = query_candidates (clock - hours_us hours) s)
  \/ (query_candidates (clock - hours_us hours) s = []
      /\ get_candidates clock clock' hours s
         = query_candidates (clock' - hours_us 48) s).
Proof.
  unfold get_candidates.
  destruct (query_candidates (clock - hours_us hours) s) eqn:E.
  - right. auto.
  - left. split; [discriminate | reflexivity].
Qed.

Lemma get_candidates_nodup (clock clock' hours : Z) (s : Store) :
  unique_ids s -> NoDup (get_candidates clock clock' hours s).
Proof.
  intro H.
  destruct (get_candidates_cases clock clock' hours s) as [[_ ->]|[_ ->]];
    now apply query_nodup.
Qed.

Lemma get_candidates_incl (clock clock' hours : Z) (s : Store) (r : Row) :
  In r (get_candidates clock clock' hours s) ->
  In r (rows s) /\ selected_for_post r = false.
Proof.
  intro H.
  assert (X : exists c, In r (rows s) /\ eligible c r = true).
  { destruct (get_candidates_cases clock clock' hours s) as [[_ E]|[_ E]];
      rewrite E in H; apply query_incl in H; eauto. }
  destruct X as (c & Hin & He). split; [assumption|].
  unfold eligible in He.
  destruct (selected_for_post r); [|reflexivity].
  rewrite !andb_false_r in He. simpl in He.
  destruct (is_us_related r && negb (is_excluded r))%bool; discriminate.
Qed.

(** ** The two passes of [_select_diverse_stories] *)

Lemma category_used_In (c : string) (used : list string) :
  category_used c used = true <-> In c used.
Proof.
  unfold category_used. rewrite existsb_exists. split.
  - intros (y & Hy & E). apply String.eqb_eq in E. now subst.
  - intro H. exists c. split; [assumption | apply String.eqb_refl].
Qed.

Lemma row_in_In (a : Row) (l : list Row) : row_in a l = true <-> In a l.
Proof.
  unfold row_in. rewrite existsb_exists. split.
  - intros (y & Hy & E). destruct (row_eq_dec a y); [now subst | discriminate].
  - intro H. exists a. split; [assumption|].
    destruct (row_eq_dec a a); [reflexivity | contradiction].
Qed.

Lemma firsts_skip (a : Row) (rest : list Row) (used : list string)
      (extra : list Row) :
  In (category a) used ->
  firsts rest used extra -> firsts (a :: rest) used extra.
Proof.
  intros Ha [F N]. split; [|exact N].
  eapply Forall_impl; [|exact F]. simpl. intros r [Hr Hf]. split; [exact Hr|].
  destruct (String.eqb (category a) (category r)) eqn:E; [|exact Hf].
  apply String.eqb_eq in E. rewrite E in Ha. contradiction.
Qed.

Lemma firsts_take (a : Row) (rest : list Row) (used : list string)
      (extra : list Row) :
  ~ In (category a) used ->
  firsts rest (category a :: used) extra ->
  firsts (a :: rest) used (a :: extra).
Proof.
  intros Ha [F N]. split.
  - constructor.
    + split; [exact Ha|]. simpl. now rewrite String.eqb_refl.
    + eapply Forall_impl; [|exact F]. simpl. intros r [Hr Hf].
      split; [tauto|].
      destruct (String.eqb (category a) (category r)) eqn:E; [|exact Hf].
      apply String.eqb_eq in E. exfalso. apply Hr. now left.
  - simpl. constructor; [|exact N].
    intro H. apply in_map_iff in H. destruct H as (r & E & Hr).
    rewrite Forall_forall in F. destruct (F r Hr) as [Hn _].
    apply Hn. now left.
Qed.

Lemma first_pass_spec (count : Z) (candidates selected : list Row)
      (used : list string) :
  match first_pass count candidates selected used with
  | Returned selected' =>
      exists extra,
        selected' = (selected ++ extra)%list
        /\ firsts candidates used extra
        /\ (len selected < count -> len selected' = count)
  | Exhausted selected' used' =>
      exists extra,
        selected' = (selected ++ extra)%list
        /\ firsts candidates used extra
        /\ (extra = [] \/ len selected' < count)
        /\ used' = (rev (map category extra) ++ used)%list
        /\ (forall x, In x candidates -> In (category x) used')
  end.
Proof.
  revert selected used.
  induction candidates as [|a rest IH]; intros selected used.
  - simpl. exists []. rewrite app_nil_r.
    split; [reflexivity|]. split; [split; constructor|].
    split; [now left|]. split; [reflexivity|]. intros x [].
  - cbn [first_pass].
    destruct (category_used (category a) used) eqn:U.
    + apply category_used_In in U. specialize (IH selected used).
      destruct (first_pass count rest selected used) as [sel'|sel' used'].
      * destruct IH as (extra & E & F & L). exists extra.
        split; [exact E|]. split; [now apply firsts_skip | exact L].
      * destruct IH as (extra & E & F & L & Eu & C). exists extra.
        split; [exact E|]. split; [now apply firsts_skip|].
        split; [exact L|]. split; [exact Eu|].
        intros x [->|Hx]; [|now apply C].
        subst used'. apply in_or_app. now right.
    + assert (Ha : ~ In (category a) used).
      { intro H. apply category_used_In in H. congruence. }
      destruct (count <=? len (selected ++ [a])) eqn:Hc.
      * apply Z.leb_le in Hc. exists [a]. split; [reflexivity|]. split.
        -- apply firsts_take; [exact Ha|]. split; constructor.
        -- rewrite len_app, len_cons in *. unfold len in *. simpl in *. lia.
      * apply Z.leb_gt in Hc.
        specialize (IH (selected ++ [a])%list (category a :: used)).
        destruct (first_pass count rest (selected ++ [a]) (category a :: used))
          as [sel'|sel' used'].
        -- destruct IH as (extra & E & F & L). exists (a :: extra).
           split; [now rewrite E, <- app_assoc|].
           split; [now apply firsts_take|]. intros _. now apply L.
        -- destruct IH as (extra & E & F & L & Eu & C). exists (a :: extra).
           split; [now rewrite E, <- app_assoc|].
           split; [now apply firsts_take|].
           split.
           { right. destruct L as [->|L]; [|exact L].
             subst sel'. now rewrite app_nil_r. }
           split; [subst used'; simpl; now rewrite <- app_assoc|].
           intros x [->|Hx]; [|now apply C].
           subst used'. apply in_or_app. right. now left.
Qed.

Lemma fill_spec (count : Z) (remaining selected : list Row) :
  (exists k, fill count selected remaining
             = (selected ++ firstn k remaining)%list)
  /\ (len selected <= count ->
      len (fill count selected remaining)
      = Z.min count (len selected + len remaining)).
Proof.
  revert selected.
  induction remaining as [|a rem IH]; intro selected; simpl.
  - split; [exists 0%nat; now rewrite app_nil_r|].
    unfold len. simpl. lia.
  - destruct (len selected <? count) eqn:E.
    + apply Z.ltb_lt in E.
      destruct (IH (selected ++ [a])%list) as [[k Hk] L]. split.
      * exists (S k). rewrite Hk. simpl. now rewrite <- app_assoc.
      * intros _. rewrite L.
        -- rewrite len_app, !len_cons. change (len (@nil Row)) with 0. lia.
        -- rewrite len_app, len_cons. change (len (@nil Row)) with 0. lia.
    + apply Z.ltb_ge in E. split; [exists 0%nat; now rewrite app_nil_r|].
      intro H. rewrite len_cons. pose proof (len_nonneg rem). lia.
Qed.

Lemma firsts_incl (candidates : list Row) (used : list string)
      (extra : list Row) :
  firsts candidates used extra -> incl extra candidates.
Proof.
  intros [F _] r Hr. rewrite Forall_forall in F.
  destruct (F r Hr) as [_ Hf]. now apply find_some in Hf.
Qed.

Lemma remaining_length (candidates selected : list Row) :
  NoDup candidates -> NoDup selected -> incl selected candidates ->
  len (filter (fun a => negb (row_in a selected)) candidates) + len selected
  = len candidates.
Proof.
  intros Nc Ns Hi.
  pose proof (filter_length (fun a => row_in a selected) candidates) as FL.
  assert (P : Permutation (filter (fun a => row_in a selected) candidates)
                          selected).
  { apply NoDup_Permutation; [now apply NoDup_filter | exact Ns |].
    intro x. rewrite filter_In, row_in_In. split; [tauto|].
    intro H. split; [now apply Hi | exact H]. }
  apply Permutation_length in P. unfold len. lia.
Qed.

Lemma select_incl (candidates : list Row) (count : Z) :
  incl (_select_diverse_stories candidates count) candidates.
Proof.
  unfold _select_diverse_stories.
  destruct (len candidates <=? count); [apply incl_refl|].
  pose proof (first_pass_spec count candidates [] []) as FP.
  destruct (first_pass count candidates [] []) as [sel|sel used].
  - destruct FP as (extra & -> & F & _). simpl.
    now apply firsts_incl in F.
  - destruct FP as (extra & -> & F & _). simpl.
    destruct (fill_spec count
                (sort_by higher_priority
                   (filter (fun a => negb (row_in a extra)) candidates))
                extra) as [[k ->] _].
    apply incl_app; [now apply firsts_incl in F|].
    intros r Hr. apply firstn_In in Hr.
    apply (Permutation_in _ (sort_by_perm higher_priority _)) in Hr.
    now apply filter_In in Hr.
Qed.

Lemma select_empty (count : Z) : _select_diverse_stories [] count = [].
Proof.
  unfold _select_diverse_stories.
  destruct (len [] <=? count); reflexivity.
Qed.

Lemma select_length (candidates : list Row) (count : Z) :
  NoDup candidates -> 1 <= count -> count <= len candidates ->
  len (_select_diverse_stories candidates count) = count.
Proof.
  intros Nc H1 Hle. unfold _select_diverse_stories.
  destruct (len candidates <=? count) eqn:E.
  - apply Z.leb_le in E. lia.
  - apply Z.leb_gt in E.
    pose proof (first_pass_spec count candidates [] []) as FP.
    destruct (first_pass count candidates [] []) as [sel|sel used].
    + destruct FP as (extra & -> & F & L). apply L. unfold len. simpl. lia.
    + destruct FP as (extra & -> & F & L & _). simpl in *.
      assert (Lx : len extra < count).
      { destruct L as [->|L]; [unfold len; simpl; lia | exact L]. }
      rewrite (proj2 (fill_spec count _ extra)) by lia.
      rewrite sort_by_len.
      assert (R : len (filter (fun a => negb (row_in a extra)) candidates)
                  + len extra = len candidates).
      { apply remaining_length; [exact Nc | |now apply firsts_incl in F].
        eapply NoDup_map_inv. apply F. }
      lia.
Qed.

Lemma nodup_full {A : Type} (dec : forall x y : A, {x = y} + {x <> y})
      (l : list A) :
  (List.length l <= List.length (nodup dec l))%nat -> NoDup l.
Proof.
  assert (B : forall l : list A,
             (List.length (nodup dec l) <= List.length l)%nat).
  { induction l0 as [|x l0 IH]; simpl; [lia|].
    destruct (in_dec dec x l0); simpl; lia. }
  induction l as [|x l IH]; simpl; intro H; [constructor|].
  destruct (in_dec dec x l) as [i|n].
  - specialize (B l). lia.
  - simpl in H. constructor; [exact n | apply IH; lia].
Qed.

Lemma nodup_firsts (candidates : list Row) :
  NoDup (map category candidates) -> firsts candidates [] candidates.
Proof.
  intro N. split; [|exact N].
  apply Forall_forall. intros r Hr. split; [intros []|].
  induction candidates as [|a rest IH]; [contradiction|].
  simpl in N. inversion N as [|? ? Hn N']; subst. simpl.
  destruct Hr as [->|Hr]; [now rewrite String.eqb_refl|].
  destruct (String.eqb (category a) (category r)) eqn:E; [|now apply IH].
  apply String.eqb_eq in E. exfalso. apply Hn. rewrite E.
  now apply in_map.
Qed.

Lemma select_diverse (candidates : list Row) (count : Z) :
  count <= distinct_categories candidates ->
  firsts candidates [] (_select_diverse_stories candidates count).
Proof.
  intro H. unfold _select_diverse_stories, distinct_categories in *.
  destruct (len candidates <=? count) eqn:E.
  - apply Z.leb_le in E. apply nodup_firsts.
    apply (nodup_full string_dec). unfold len in *.
    rewrite length_map in *. lia.
  - pose proof (first_pass_spec count candidates [] []) as FP.
    destruct (first_pass count candidates [] []) as [sel|sel used].
    + destruct FP as (extra & -> & F & _). exact F.
    + destruct FP as (extra & -> & F & L & -> & C). simpl in *.
      destruct L as [->|L].
      * destruct candidates as [|a rest]; [|destruct (C a); now left].
        simpl. split; constructor.
      * exfalso. rewrite app_nil_r in C.
        assert (I : incl (nodup string_dec (map category candidates))
                         (rev (map category extra))).
        { intros c Hc. apply nodup_In in Hc. apply in_map_iff in Hc.
          destruct Hc as (x & <- & Hx). now apply C. }
        apply NoDup_incl_length in I; [|apply NoDup_nodup].
        rewrite length_rev, length_map in I. unfold len in *. lia.
Qed.

(** ** C3: how many stories the selector returns *)

(** C3, as stated, fails: of sixty eligible rows the candidate query
    keeps fifty, so a request for 55 returns 50 rows, not 55, and a
    request for 70 returns 50 rows, not all sixty. *)
Lemma top_stories_capped_at_fifty :
  eligible_count (noon - hours_us 24) sixty = 60
  /\ len (fst (get_top_stories noon noon 55 24 sixty)) = 50
  /\ len (fst (get_top_stories noon noon 70 24 sixty)) = 50.
Proof. vm_compute. repeat split. Qed.

(** C3, amended.  For every store with unique row ids, every target count
    N >= 1 and every window, with E the number of rows the candidate
    query accepts in the window (is_us_related = 1, is_excluded = 0,
    selected_for_post = 0, collected at or after the cutoff): if
    N <= E and N <= 50 the Selector returns exactly N rows; if
    1 <= E <= N and E <= 50 it returns all E of them.  In terms of the
    candidate list the query produced (at most 50 rows, from the 48-hour
    window when the requested one is empty): with at least N candidates
    it returns exactly N rows, with at most N it returns the candidates
    themselves. *)
Theorem top_stories_count (s : Store) (clock clock' count hours : Z) :
  unique_ids s ->
  1 <= count ->
  (count <= eligible_count (clock - hours_us hours) s ->
   count <= 50 ->
   len (fst (get_top_stories clock clock' count hours s)) = count)
  /\ (1 <= eligible_count (clock - hours_us hours) s ->
      eligible_count (clock - hours_us hours) s <= count ->
      eligible_count (clock - hours_us hours) s <= 50 ->
      Permutation (fst (get_top_stories clock clock' count hours s))
                  (filter (eligible (clock - hours_us hours)) (rows s)))
  /\ (count <= len (get_candidates clock clock' hours s) ->
      len (fst (get_top_stories clock clock' count hours s)) = count)
  /\ (len (get_candidates clock clock' hours s) <= count ->
      fst (get_top_stories clock clock' count hours s)
      = get_candidates clock clock' hours s).
Proof.
  intros U H1. unfold get_top_stories, select_stories. cbn [fst].
  pose proof (get_candidates_nodup clock clock' hours s U) as ND.
  pose proof (query_len (clock - hours_us hours) s) as QL.
  assert (Q : 1 <= eligible_count (clock - hours_us hours) s ->
              get_candidates clock clock' hours s
              = query_candidates (clock - hours_us hours) s).
  { intro HE.
    destruct (get_candidates_cases clock clock' hours s) as [[_ E]|[E _]];
      [exact E|].
    rewrite E in QL. change (len (@nil Row)) with 0 in QL. lia. }
  repeat split.
  - intros HE H50. apply select_length; try assumption.
    rewrite Q by lia. lia.
  - intros HE1 HEc HE50. rewrite Q by assumption.
    unfold _select_diverse_stories.
    replace (len (query_candidates (clock - hours_us hours) s) <=? count)
      with true by (symmetry; apply Z.leb_le; lia).
    unfold query_candidates. rewrite firstn_all2.
    + apply sort_by_perm.
    + unfold eligible_count in HE50.
      rewrite <- (sort_by_len outranks) in HE50. unfold len in HE50. lia.
  - intro Hc. now apply select_length.
  - intro Hc. unfold _select_diverse_stories.
    now replace (len (get_candidates clock clock' hours s) <=? count)
      with true by (symmetry; apply Z.leb_le; lia).
Qed.

Lemma top_stories_count_witness :
  len (fst (get_top_stories noon noon 3 24 scenario2)) = 3.
Proof.
  apply (proj1 (top_stories_count scenario2 noon noon 3 24
                  ltac:(vm_compute; repeat constructor; simpl; intuition discriminate)
                  ltac:(lia)));
    apply Z.leb_le; vm_compute; reflexivity.
Defined.

(** ** C4: category diversity *)

(** C4, as stated, fails: the eligible rows span three categories and
    N = 3, yet the three returned rows are all Politics, because the
    fifty rows the query keeps are the fifty Politics rows. *)
Lemma top_stories_repeat_category :
  distinct_categories
    (filter (eligible (noon - hours_us 24)) (rows lopsided)) = 3
  /\ map category (fst (get_top_stories noon noon 3 24 lopsided))
     = ["Politics"; "Politics"; "Politics"]
  /\ ~ NoDup (map category (fst (get_top_stories noon noon 3 24 lopsided))).
Proof.
  assert (E : map category (fst (get_top_stories noon noon 3 24 lopsided))
              = ["Politics"; "Politics"; "Politics"])
    by (vm_compute; reflexivity).
  split; [vm_compute; reflexivity|]. split; [exact E|].
  rewrite E. intro N. inversion N as [|? ? Hn _]. apply Hn. now left.
Qed.

(** C4, amended.  For every store, target count N and window, with
    [candidates] the list the candidate query produced (the at most 50
    highest-ranked eligible rows): if N is at most the number of distinct
    categories among the candidates, no two returned articles have the
    same category, and every returned article is the first candidate of
    its category in rank order. *)
Theorem top_stories_diverse (s : Store) (clock clock' count hours : Z) :
  count <= distinct_categories (get_candidates clock clock' hours s) ->
  NoDup (map category (fst (get_top_stories clock clock' count hours s)))
  /\ Forall (fun r =>
               find (fun x => String.eqb (category x) (category r))
                    (get_candidates clock clock' hours s) = Some r)
            (fst (get_top_stories clock clock' count hours s)).
Proof.
  intro H. unfold get_top_stories, select_stories. cbn [fst].
  destruct (select_diverse _ _ H) as [F N]. split; [exact N|].
  eapply Forall_impl; [|exact F]. simpl. tauto.
Qed.

Lemma top_stories_diverse_witness :
  NoDup (map category (fst (get_top_stories noon noon 2 24 scenario2))).
Proof.
  apply (top_stories_diverse scenario2 noon noon 2 24).
  apply Z.leb_le. vm_compute. reflexivity.
Defined.

(** ** C7: the retry window *)

(** C7, as stated, fails: with a 10-hour window and one eligible row
    collected 30 hours ago, the query over the window is empty and so is
    the query over the doubled, 20-hour window, yet the Selector returns
    the row: the retry looks at the last 48 hours. *)
Lemma retry_window_is_not_doubled :
  query_candidates (noon - hours_us 10) stale = []
  /\ query_candidates (noon - hours_us (2 * 10)) stale = []
  /\ map id (fst (get_top_stories noon noon 5 10 stale)) = [1].
Proof. vm_compute. repeat split. Qed.

(** C7, amended.  For every window size given to the Selector: if the
    candidate query over that window returns rows, the Selector chooses
    among them; if it returns no rows, the Selector retries exactly once,
    over the last 48 hours whatever the window was, and chooses among the
    rows of the retry; if the retry is empty too, it returns the empty
    list and leaves the store as it was.*)
Theorem top_stories_retry (s : Store) (clock clock' count hours : Z) :
  (query_candidates (clock - hours_us hours) s <> [] ->
   fst (get_top_stories clock clock' count hours s)
   = _select_diverse_stories
       (query_candidates (clock - hours_us hours) s) count)
  /\ (query_candidates (clock - hours_us hours) s = [] ->
      fst (get_top_stories clock clock' count hours s)
      = _select_diverse_stories
          (query_candidates (clock' - hours_us 48) s) count
      /\ (query_candidates (clock' - hours_us 48) s = [] ->
          get_top_stories clock clock' count hours s = ([], s))).
Proof.
  unfold get_top_stories, select_stories. cbn [fst].
  destruct (get_candidates_cases clock clock' hours s) as [[N E]|[N E]];
    rewrite E.
  - split; [reflexivity | intro; contradiction].
  - split; [intro; contradiction|]. intros _. split; [reflexivity|].
    intros ->. now rewrite select_empty.
Qed.

Lemma top_stories_retry_witness :
  fst (get_top_stories noon noon 5 10 stale)
  = _select_diverse_stories
      (query_candidates (noon - hours_us 48) stale) 5.
Proof.
  apply (proj2 (top_stories_retry stale noon noon 5 10)).
  vm_compute. reflexivity.
Defined.

(** ** C9: the read and the mark of the selector *)

(** C9, as stated, fails: when the reads of two invocations both come
    before the marks, the two invocations return the same row. *)
Lemma overlapping_selectors_share_rows :
  map id (fst (fst (overlapping_top_stories noon noon 5 24 one_unselected)))
  = [1]
  /\ map id (snd (fst (overlapping_top_stories noon noon 5 24 one_unselected)))
     = [1].
Proof. vm_compute. split; reflexivity. Qed.

(** C9, amended.  The Selector's read of eligible candidates and its
    marking of the chosen rows are two store operations.  The marking is
    one UPDATE: after an invocation every row whose id was returned has
    [selected_for_post] set and every other row is as it was, so no
    partial selection is left behind.  Two invocations on the same store
    that run one after the other never return rows with a common id. *)
Theorem serial_selectors_disjoint (s : Store)
        (clock_a clock_a' clock_b clock_b' : Z)
        (count_a hours_a count_b hours_b : Z) :
  Forall2 (fun r r' =>
             (In (id r)
                 (map id (fst (get_top_stories clock_a clock_a'
                                 count_a hours_a s))) ->
              r' = set_selected true r)
             /\ (~ In (id r)
                   (map id (fst (get_top_stories clock_a clock_a'
                                   count_a hours_a s))) ->
                 r' = r))
          (rows s)
          (rows (snd (get_top_stories clock_a clock_a' count_a hours_a s)))
  /\ (forall x y,
         In x (fst (get_top_stories clock_a clock_a' count_a hours_a s)) ->
         In y (fst (get_top_stories clock_b clock_b' count_b hours_b
                      (snd (get_top_stories clock_a clock_a'
                              count_a hours_a s)))) ->
         id x <> id y).
Proof.
  unfold get_top_stories. cbn [fst snd].
  set (a := select_stories clock_a clock_a' count_a hours_a s).
  rewrite mark_stories_update. split.
  - unfold update_where. simpl. apply Forall2_map_self. intro r.
    destruct (id_in (id r) (map id a)) eqn:E.
    + split; [auto | intro N; apply id_in_In in E; contradiction].
    + split; [intro H; apply id_in_In in H; congruence | reflexivity].
  - intros x y Hx Hy Hid.
    apply select_incl in Hy. apply get_candidates_incl in Hy.
    destruct Hy as [Hy Hsel].
    unfold update_where in Hy. simpl in Hy. apply in_map_iff in Hy.
    destruct Hy as (r & Er & Hr).
    assert (I : In (id y) (map id a)) by (rewrite <- Hid; now apply in_map).
    destruct (id_in (id r) (map id a)) eqn:E.
    + subst y. simpl in Hsel. discriminate.
    + subst y. apply id_in_In in I. congruence.
Qed.

Lemma serial_selectors_disjoint_witness :
  id (fresh_row 1 "Politics" 20 (noon - hours_us 1))
  <> id (fresh_row 3 "Politics" 10 (noon - hours_us 1)).
Proof.
  apply (proj2 (serial_selectors_disjoint scenario2 noon noon noon noon
                  3 24 3 24)).
  - vm_compute. left. reflexivity.
  - vm_compute. left. reflexivity.
Defined.

(** ** The specification's scenarios, run on the model *)

Example scenario3_relevant :
  _is_us_related "Rumor has it Congress may pass a bill" = true.
Proof. vm_compute. reflexivity. Qed.

Example scenario3_excluded :
  _should_exclude "Kardashian exclusive gossip update" = true.
Proof. vm_compute. reflexivity. Qed.

Example scenario4_reset_after_posting :
  map selection_state
      (rows (reset_selections
               (mark_as_posted [1; 4]
                  (snd (get_top_stories noon noon 3 24 scenario2)))))
  = [Posted; Unselected; Unselected; Posted; Unselected].
Proof. vm_compute. reflexivity. Qed.

Example scenario5_purge :
  map id
      (rows (_clean_old_articles noon
               (table [set_posted true
                         (fresh_row 1 "Politics" 10 (noon - days_us 10));
                       fresh_row 2 "Politics" 10 (noon - days_us 10)])))
  = [1].
Proof. vm_compute. reflexivity. Qed.

(* ================================================================== *)
(** * Further properties of the collector and the ranker *)

(** ** Substring tests *)

Lemma prefix_split (kw text : string) :
  String.prefix kw text = true <-> exists post, text = (kw ++ post)%string.
Proof.
  revert text. induction kw as [|c kw IH]; intro text.
  - split; [intros _; now exists text|]. intros _. now destruct text.
  - destruct text as [|d text]; simpl.
    + split; [discriminate | intros [post H]; discriminate].
    + destruct (Ascii.ascii_dec c d) as [->|N].
      * rewrite IH. split; intros [post H]; exists post.
        -- now rewrite H.
        -- now inversion H.
      * split; [discriminate|]. intros [post H]. inversion H. congruence.
Qed.

Lemma contains_split (kw text : string) :
  contains kw text = true
  <-> exists pre post, text = (pre ++ kw ++ post)%string.
Proof.
  induction text as [|d text IH].
  - cbn [contains]. rewrite orb_false_r, prefix_split. split.
    + intros [post H]. now exists "", post.
    + intros (pre & post & H). destruct pre; [now exists post|discriminate].
  - cbn [contains]. rewrite orb_true_iff, prefix_split, IH. split.
    + intros [[post H]|(pre & post & H)].
      * now exists "", post.
      * exists (String d pre), post. simpl. now rewrite H.
    + intros (pre & post & H). destruct pre as [|c pre].
      * left. now exists post.
      * right. simpl in H. inversion H. now exists pre, post.
Qed.

Lemma string_app_assoc (a b c : string) :
  ((a ++ b) ++ c = a ++ (b ++ c))%string.
Proof. induction a as [|x a IH]; simpl; [reflexivity | now rewrite IH]. Qed.

Lemma contains_within (kw before text after : string) :
  contains kw text = true ->
  contains kw (before ++ text ++ after) = true.
Proof.
  rewrite !contains_split. intros (pre & post & ->).
  exists (before ++ pre)%string, (post ++ after)%string.
  now rewrite !string_app_assoc.
Qed.

Lemma any_keyword_split (kws : list string) (text : string) :
  any_keyword kws text = true
  <-> exists kw pre post,
      In kw kws /\ text = (pre ++ kw ++ post)%string.
Proof.
  unfold any_keyword. rewrite existsb_exists. split.
  - intros (kw & Hin & H). apply contains_split in H.
    destruct H as (pre & post & H). now exists kw, pre, post.
  - intros (kw & pre & post & Hin & H). exists kw. split; [exact Hin|].
    apply contains_split. now exists pre, post.
Qed.

Lemma any_keyword_within (kws : list string) (before text after : string) :
  any_keyword kws text = true ->
  any_keyword kws (before ++ text ++ after) = true.
Proof.
  unfold any_keyword. rewrite !existsb_exists.
  intros (kw & Hin & H). exists kw. split; [exact Hin|].
  now apply contains_within.
Qed.

Lemma hits_mono (t1 t2 : string) (kws : list string) :
  (forall kw, contains kw t1 = true -> contains kw t2 = true) ->
  hits t1 kws <= hits t2 kws.
Proof.
  intro H. induction kws as [|kw kws IH].
  - unfold hits, len. simpl. lia.
  - rewrite !hits_cons. specialize (H kw).
    destruct (contains kw t1); [rewrite H by reflexivity; lia|].
    destruct (contains kw t2); lia.
Qed.

Lemma lower_context (before title description after : string) :
  lower (join_space (before ++ title) (description ++ after))
  = (lower before ++ lower (join_space title description) ++ lower after)%string.
Proof.
  unfold join_space. rewrite !lower_app. now rewrite !string_app_assoc.
Qed.

(** X1.  The relevance flag is set exactly when some keyword of
    [US_KEYWORDS] occurs as a contiguous substring of the lower-cased
    text, and the exclusion flag exactly when some keyword of
    [EXCLUSION_KEYWORDS] does. *)
Theorem relevance_flags_substring (text : string) :
  (_is_us_related text = true
   <-> exists kw pre post,
       In kw US_KEYWORDS /\ lower text = (pre ++ kw ++ post)%string)
  /\ (_should_exclude text = true
      <-> exists kw pre post,
          In kw EXCLUSION_KEYWORDS
          /\ lower text = (pre ++ kw ++ post)%string).
Proof.
  unfold _is_us_related, _should_exclude.
  split; apply any_keyword_split.
Qed.

Lemma relevance_flags_substring_witness :
  _is_us_related "Rumor has it Congress may pass a bill" = true.
Proof.
  apply (proj1 (relevance_flags_substring
                  "Rumor has it Congress may pass a bill")).
  exists "congress", "rumor has it ", " may pass a bill".
  split; [vm_compute; tauto | reflexivity].
Defined.

(** X2.  Text put in front of the title or after the description never
    clears the relevance flag or the exclusion flag and never lowers the
    priority score. *)
Theorem annotations_grow_with_context
        (before title description after : string) :
  (_is_us_related (join_space title description) = true ->
   _is_us_related (join_space (before ++ title) (description ++ after))
   = true)
  /\ (_should_exclude (join_space title description) = true ->
      _should_exclude (join_space (before ++ title) (description ++ after))
      = true)
  /\ _calculate_priority title description
     <= _calculate_priority (before ++ title) (description ++ after).
Proof.
  unfold _is_us_related, _should_exclude, _calculate_priority.
  rewrite !lower_context. split; [apply any_keyword_within|].
  split; [apply any_keyword_within|].
  rewrite !score_tiers_presence.
  apply presence_score_mono; [exact priority_weights_nonneg|].
  apply Forall_forall. intros e _. apply hits_mono.
  intros kw. apply contains_within.
Qed.

Lemma annotations_grow_with_context_witness :
  _should_exclude (join_space "Breaking: Celebrity chef opens" "a diner today")
  = true.
Proof.
  apply (proj1 (proj2 (annotations_grow_with_context
                         "Breaking: " "Celebrity chef opens" "a diner"
                         " today"))).
  vm_compute. reflexivity.
Defined.

(** X3.  The classifier returns one of the eight configured category
    names or ["General"], and it returns ["General"] exactly when no
    keyword of any category occurs in the lower-cased text. *)
Theorem detect_category_labels (title description : string) :
  In (_detect_category title description) category_labels
  /\ (_detect_category title description = "General"
      <-> Forall (fun e =>
                    hits (lower (join_space title description)) (snd e) = 0)
                 CATEGORY_KEYWORDS).
Proof.
  unfold _detect_category, category_labels.
  destruct (detect_in_argmax (lower (join_space title description))
                             CATEGORY_KEYWORDS)
    as [[F E]|(pre & c & kws & post & T & E & P & _)].
  - rewrite E. split; [apply in_or_app; right; now left | tauto].
  - assert (I : In c (map fst CATEGORY_KEYWORDS)).
    { rewrite T, map_app. apply in_or_app. right. now left. }
    rewrite E. split; [apply in_or_app; now left|]. split.
    + intros ->. exfalso. revert I. vm_compute.
      intuition discriminate.
    + intro F. exfalso. rewrite T in F. apply Forall_app in F.
      destruct F as [_ F]. inversion F; subst. simpl in *. lia.
Qed.

Lemma detect_category_labels_witness :
  _detect_category "Hello" "world" = "General".
Proof.
  apply (proj2 (proj2 (detect_category_labels "Hello" "world"))).
  repeat constructor.
Defined.

(** ** Fingerprints *)





(** ** What the operations do to the rows of the table *)

Lemma content_selected (b : bool) (r : Row) :
  content (set_selected b r) = content r.
Proof. reflexivity. Qed.

Lemma content_posted (b : bool) (r : Row) :
  content (set_posted b r) = content r.
Proof. reflexivity. Qed.

Lemma content_id (r r' : Row) : content r' = content r -> id r' = id r.
Proof. intro H. change (id (content r') = id (content r)). now rewrite H. Qed.

Lemma annotated_content (md5 : string -> string) (r r' : Row) :
  content r' = content r -> annotated md5 r -> annotated md5 r'.
Proof.
  intros H A. unfold annotated in *.
  assert (E1 : article_hash r' = article_hash r)
    by (change (article_hash (content r') = article_hash (content r));
        now rewrite H).
  assert (E2 : title r' = title r)
    by (change (title (content r') = title (content r)); now rewrite H).
  assert (E3 : link r' = link r)
    by (change (link (content r') = link (content r)); now rewrite H).
  assert (E4 : description r' = description r)
    by (change (description (content r') = description (content r));
        now rewrite H).
  assert (E5 : category r' = category r)
    by (change (category (content r') = category (content r));
        now rewrite H).
  assert (E6 : priority_score r' = priority_score r)
    by (change (priority_score (content r') = priority_score (content r));
        now rewrite H).
  assert (E7 : is_us_related r' = is_us_related r)
    by (change (is_us_related (content r') = is_us_related (content r));
        now rewrite H).
  assert (E8 : is_excluded r' = is_excluded r)
    by (change (is_excluded (content r') = is_excluded (content r));
        now rewrite H).
  now rewrite E1, E2, E3, E4, E5, E6, E7, E8.
Qed.

Lemma perform_flag_update (md5 : string -> string) (op : Op) (s : Store)
      (cond : Row -> bool) (f : Row -> Row) :
  flag_update op s = Some (cond, f) ->
  perform md5 s op = update_where cond f s
  /\ (forall r, content (f r) = content r)
  /\ (forall r, posted r = true -> cond r = true -> posted (f r) = true).
Proof.
  destruct op; simpl; intro H; inversion H; subst; clear H.
  - unfold get_top_stories. cbn [snd]. rewrite mark_stories_update.
    repeat split; auto.
  - repeat split; auto.
  - repeat split; auto.
Qed.

Section Operations.

Variable md5 : string -> string.

Lemma build_row_fields (source_name : string) (clock_pub clock_col : Z)
      (e : Entry) :
  article_hash (build_row md5 source_name clock_pub clock_col e)
  = _generate_hash md5 (e_title e) (e_link e)
  /\ title (build_row md5 source_name clock_pub clock_col e) = e_title e
  /\ link (build_row md5 source_name clock_pub clock_col e) = e_link e
  /\ description (build_row md5 source_name clock_pub clock_col e)
     = e_description e
  /\ category (build_row md5 source_name clock_pub clock_col e)
     = _detect_category (e_title e) (e_description e)
  /\ priority_score (build_row md5 source_name clock_pub clock_col e)
     = _calculate_priority (e_title e) (e_description e)
  /\ is_us_related (build_row md5 source_name clock_pub clock_col e)
     = _is_us_related (join_space (e_title e) (e_description e))
  /\ is_excluded (build_row md5 source_name clock_pub clock_col e)
     = _should_exclude (join_space (e_title e) (e_description e)).
Proof. repeat split. Qed.

Lemma collect_entry_rows (source_name : string) (clock_pub clock_col : Z)
      (e : Entry) (s : Store) :
  (rows (fst (collect_entry md5 source_name clock_pub clock_col e s))
   = rows s
   /\ snd (collect_entry md5 source_name clock_pub clock_col e s) = 0
   /\ seq s
      <= seq (fst (collect_entry md5 source_name clock_pub clock_col e s)))
  \/ (exists r,
         rows (fst (collect_entry md5 source_name clock_pub clock_col e s))
         = (rows s ++ [r])%list
         /\ snd (collect_entry md5 source_name clock_pub clock_col e s) = 1
         /\ seq s < id r
         /\ id r
            = seq (fst (collect_entry md5 source_name clock_pub clock_col
                          e s))
         /\ ~ In (id r) (map id (rows s))
         /\ has_hash (article_hash r) s = false
         /\ annotated md5 r
         /\ source r = source_name
         /\ collected_time r = clock_col
         /\ selected_for_post r = false /\ posted r = false).
Proof.
  unfold collect_entry.
  destruct (String.eqb (e_title e) "") eqn:Et; simpl;
    [left; repeat split; lia|].
  destruct (String.eqb (e_link e) "") eqn:El; simpl;
    [left; repeat split; lia|].
  apply String.eqb_neq in Et, El.
  unfold upsert, insert_or_ignore.
  destruct (existsb _ (rows s)) eqn:E; cbn [fst snd rows seq].
  - left. repeat split. lia.
  - right. eexists. split; [reflexivity|]. split; [reflexivity|].
    cbn [id article_hash source collected_time selected_for_post posted].
    split; [lia|]. split; [reflexivity|]. split.
    { rewrite in_map_iff. intros (x & Ex & Hx).
      apply max_rowid_bound in Hx. lia. }
    split; [exact E|]. split; [|repeat split].
    unfold annotated.
    cbn [article_hash title link description category priority_score
         is_us_related is_excluded].
    pose proof (build_row_fields source_name clock_pub clock_col e)
      as (B1 & B2 & B3 & B4 & B5 & B6 & B7 & B8).
    rewrite B1, B2, B3, B4, B5, B6, B7, B8.
    repeat split; assumption.
Qed.

Lemma perform_seq (op : Op) (s : Store) : seq s <= seq (perform md5 s op).
Proof.
  destruct (flag_update op s) as [[cond f]|] eqn:F.
  - destruct (perform_flag_update md5 op s cond f F) as (-> & _). simpl. lia.
  - destruct op; try discriminate; cbn [perform].
    + destruct (collect_entry_rows source_name clock_pub clock_col e s)
        as [(_ & _ & H)|(r & _ & _ & H1 & H2 & _)]; lia.
    + simpl. lia.
Qed.

(** Where a row of the table after one operation comes from. *)
Lemma perform_origin (op : Op) (s : Store) (r' : Row) :
  In r' (rows (perform md5 s op)) ->
  (exists r, In r (rows s) /\ content r' = content r)
  \/ (seq s < id r' /\ id r' <= seq (perform md5 s op)
      /\ annotated md5 r').
Proof.
  intro H. destruct (flag_update op s) as [[cond f]|] eqn:F.
  - destruct (perform_flag_update md5 op s cond f F) as (E & C & _).
    rewrite E in H. unfold update_where in H. simpl in H.
    apply in_map_iff in H. destruct H as (r & <- & Hr).
    left. exists r. split; [exact Hr|]. destruct (cond r); auto.
  - destruct op; try discriminate; cbn [perform] in *.
    + destruct (collect_entry_rows source_name clock_pub clock_col e s)
        as [(E & _)|(r & E & _ & H1 & H2 & _ & _ & A & _)];
        rewrite E in H.
      * left. now exists r'.
      * apply in_app_or in H. destruct H as [H|[<-|[]]].
        -- left. now exists r'.
        -- right. split; [lia|]. split; [lia | exact A].
    + left. exists r'. split; [|reflexivity].
      unfold _clean_old_articles, delete_where in H. simpl in H.
      now apply filter_In in H.
Qed.

(** A posted row is still there, posted, after one operation. *)
Lemma perform_keeps_posted (op : Op) (s : Store) (r : Row) :
  In r (rows s) -> posted r = true ->
  exists r', In r' (rows (perform md5 s op))
             /\ content r' = content r /\ posted r' = true.
Proof.
  intros Hin Hp. destruct (flag_update op s) as [[cond f]|] eqn:F.
  - destruct (perform_flag_update md5 op s cond f F) as (E & C & P).
    rewrite E. unfold update_where. simpl.
    exists (if cond r then f r else r). split; [|destruct (cond r) eqn:Ec; auto].
    apply in_map_iff. now exists r.
  - destruct op; try discriminate; cbn [perform].
    + exists r. split; [|auto].
      destruct (collect_entry_rows source_name clock_pub clock_col e s)
        as [(E & _)|(x & E & _)]; rewrite E; [exact Hin|].
      apply in_or_app. now left.
    + exists r. split; [now apply posted_survives_clean | auto].
Qed.

(** A row is still there after one operation other than the purge. *)
Lemma perform_keeps_row (op : Op) (s : Store) (r : Row) :
  is_clean op = false -> In r (rows s) ->
  exists r', In r' (rows (perform md5 s op)) /\ content r' = content r.
Proof.
  intros Hop Hin. destruct (flag_update op s) as [[cond f]|] eqn:F.
  - destruct (perform_flag_update md5 op s cond f F) as (E & C & P).
    rewrite E. unfold update_where. simpl.
    exists (if cond r then f r else r). split; [|destruct (cond r); auto].
    apply in_map_iff. now exists r.
  - destruct op; try discriminate; cbn [perform].
    exists r. split; [|auto].
    destruct (collect_entry_rows source_name clock_pub clock_col e s)
      as [(E & _)|(x & E & _)]; rewrite E; [exact Hin|].
    apply in_or_app. now left.
Qed.

Lemma run_cons (op : Op) (ops : list Op) (s : Store) :
  run md5 (op :: ops) s = run md5 ops (perform md5 s op).
Proof. reflexivity. Qed.

Lemma run_seq (ops : list Op) (s : Store) : seq s <= seq (run md5 ops s).
Proof.
  revert s. induction ops as [|op ops IH]; intro s; [simpl; lia|].
  rewrite run_cons. specialize (IH (perform md5 s op)).
  pose proof (perform_seq op s). lia.
Qed.

End Operations.

(** ** Invariants of the table *)

Lemma detect_category_in_labels (title description : string) :
  In (_detect_category title description) category_labels.
Proof.
  unfold _detect_category, category_labels.
  destruct (detect_in_argmax (lower (join_space title description))
                             CATEGORY_KEYWORDS)
    as [[_ ->]|(pre & c & kws & post & T & -> & _)];
    apply in_or_app; [right; now left | left].
  rewrite T, map_app. apply in_or_app. right. now left.
Qed.

Lemma calculate_priority_range (title description : string) :
  0 <= _calculate_priority title description <= 382.
Proof.
  unfold _calculate_priority. rewrite score_tiers_presence.
  pose proof (presence_score_bounds PRIORITY_KEYWORDS
                (lower (join_space title description))
                priority_weights_nonneg) as B.
  replace (score_ceiling PRIORITY_KEYWORDS) with 382 in B
    by (vm_compute; reflexivity).
  exact B.
Qed.

Lemma perform_well_kept (md5 : string -> string) (op : Op) (s : Store) :
  well_kept md5 s -> well_kept md5 (perform md5 s op).
Proof.
  intros [H0 HF]. pose proof (perform_seq md5 op s) as Hs.
  split; [lia|]. apply Forall_forall. intros r' Hr'.
  rewrite Forall_forall in HF.
  destruct (perform_origin md5 op s r' Hr')
    as [(r & Hr & C)|(H1 & H2 & A)].
  - destruct (HF r Hr) as [B A]. rewrite (content_id _ _ C).
    split; [lia | now apply (annotated_content md5 r)].
  - split; [lia | exact A].
Qed.

Lemma run_well_kept (md5 : string -> string) (ops : list Op) (s : Store) :
  well_kept md5 s -> well_kept md5 (run md5 ops s).
Proof.
  revert s. induction ops as [|op ops IH]; intros s H; [exact H|].
  rewrite run_cons. apply IH. now apply perform_well_kept.
Qed.

(** X5.  In every table the code can build from the empty one, row ids
    are unique, positive and at most the rowid counter, fingerprints are
    unique, and every row is the annotation of its own title and
    description: its fingerprint is the digest of its title and link, its
    category, score and two filter flags are what the classifier, the
    scorer and the filters compute from its text, and its title and link
    are not empty; so its score lies between 0 and 382 and its category
    is one of the nine labels. *)
Theorem reachable_store_invariants (md5 : string -> string) (s : Store) :
  reachable md5 s ->
  NoDup (map id (rows s))
  /\ NoDup (map article_hash (rows s))
  /\ Forall (fun r =>
               1 <= id r <= seq s
               /\ annotated md5 r
               /\ 0 <= priority_score r <= 382
               /\ In (category r) category_labels)
            (rows s).
Proof.
  intro R. destruct (reachable_valid md5 s R) as [V1 V2].
  split; [exact V1|]. split; [exact V2|].
  destruct R as [ops ->].
  assert (W : well_kept md5 (run md5 ops Store.empty)).
  { apply run_well_kept. split; [simpl; lia | constructor]. }
  destruct W as [_ W]. eapply Forall_impl; [|exact W]. simpl.
  intros r (B & A). split; [exact B|]. split; [exact A|].
  destruct A as (_ & Ec & Ep & _). rewrite Ec, Ep.
  split; [apply calculate_priority_range | apply detect_category_in_labels].
Qed.

Lemma reachable_store_invariants_witness :
  NoDup (map id
           (rows (run (fun b => b)
                    [CollectEntry "CNN" 7 7
                       {| e_title := "Senate Passes Bill";
                          e_description := "d"; e_link := "http://x/1";
                          e_published := "" |};
                     TopStories 8 8 5 24]
                    Store.empty))).
Proof.
  apply (reachable_store_invariants (fun b => b)).
  eexists. reflexivity.
Defined.

(** X6.  No operation ever clears the [posted] flag or removes a posted
    row: after any sequence of collecting, selecting, marking, resetting
    and purging, a row that was posted is still in the table, still
    posted, with every other column but [selected_for_post] as it was.
    A row that is not posted can only disappear through the purge. *)
Theorem posted_flag_is_permanent (md5 : string -> string) (ops : list Op)
        (s : Store) (r : Row) :
  In r (rows s) ->
  (posted r = true ->
   exists r', In r' (rows (run md5 ops s))
              /\ content r' = content r /\ posted r' = true)
  /\ (forallb (fun op => negb (is_clean op)) ops = true ->
      exists r', In r' (rows (run md5 ops s)) /\ content r' = content r).
Proof.
  revert s r. induction ops as [|op ops IH]; intros s r Hin.
  - split; intros; exists r; auto.
  - rewrite run_cons. split.
    + intro Hp.
      destruct (perform_keeps_posted md5 op s r Hin Hp) as (r1 & H1 & C1 & P1).
      destruct (proj1 (IH _ r1 H1) P1) as (r' & H' & C' & P').
      exists r'. split; [exact H'|]. split; [congruence | exact P'].
    + intro Hops. simpl in Hops. apply andb_prop in Hops.
      destruct Hops as [Hop Hops].
      assert (Hc : is_clean op = false) by now destruct (is_clean op).
      destruct (perform_keeps_row md5 op s r Hc Hin) as (r1 & H1 & C1).
      destruct (proj2 (IH _ r1 H1) Hops) as (r' & H' & C').
      exists r'. split; [exact H' | congruence].
Qed.

Lemma posted_flag_is_permanent_witness :
  exists r',
    In r' (rows (run (fun b => b)
                   [ResetSelections; TopStories noon noon 5 24;
                    CleanOld (noon + days_us 30)]
                   (mark_as_posted [1] one_unselected)))
    /\ content r'
       = content (set_posted true
                    (fresh_row 1 "Politics" 10 (noon - hours_us 1)))
    /\ posted r' = true.
Proof.
  apply (proj1 (posted_flag_is_permanent (fun b => b)
                  [ResetSelections; TopStories noon noon 5 24;
                   CleanOld (noon + days_us 30)]
                  (mark_as_posted [1] one_unselected)
                  (set_posted true
                     (fresh_row 1 "Politics" 10 (noon - hours_us 1)))
                  ltac:(left; reflexivity))).
  reflexivity.
Defined.

(** X7.  No operation rewrites an article: after any sequence of
    operations every row of the table either is new, with a row id above
    the counter the sequence started from, or is a row the table had at
    the start with every column but the two lifecycle flags unchanged. *)
Theorem stored_articles_are_immutable (md5 : string -> string)
        (ops : list Op) (s : Store) (r' : Row) :
  In r' (rows (run md5 ops s)) ->
  (exists r, In r (rows s) /\ content r' = content r) \/ seq s < id r'.
Proof.
  revert s. induction ops as [|op ops IH]; intros s H.
  - left. now exists r'.
  - rewrite run_cons in H. destruct (IH _ H) as [(r1 & H1 & C1)|Hid].
    + destruct (perform_origin md5 op s r1 H1) as [(r & Hr & C)|(Hn & _)].
      * left. exists r. split; [exact Hr | congruence].
      * right. now rewrite (content_id _ _ C1).
    + right. pose proof (perform_seq md5 op s). lia.
Qed.

Lemma stored_articles_are_immutable_witness :
  (exists r, In r (rows scenario2)
             /\ content (set_selected true
                           (fresh_row 1 "Politics" 20 (noon - hours_us 1)))
                = content r)
  \/ seq scenario2
     < id (set_selected true
             (fresh_row 1 "Politics" 20 (noon - hours_us 1))).
Proof.
  apply (stored_articles_are_immutable (fun b => b)
           [TopStories noon noon 3 24] scenario2).
  vm_compute. left. reflexivity.
Defined.

(** ** Collecting feeds *)



Section Feeds.

Variable md5 : string -> string.

Lemma collect_entries_run (source_name : string) (entries : list Timed)
      (s : Store) (n : Z) :
  fst (collect_entries md5 source_name entries s n)
  = run md5 (entry_ops source_name entries) s.
Proof.
  revert s n. induction entries as [|t rest IH]; intros s n; [reflexivity|].
  cbn [collect_entries entry_ops map]. rewrite run_cons. cbn [perform].
  destruct (collect_entry md5 source_name (at_pub t) (at_col t) (entry t) s)
    as [s1 rc]. cbn [fst]. apply IH.
Qed.


Lemma collect_entries_spec (source_name : string) (entries : list Timed)
      (s : Store) (n : Z) :
  exists new,
    rows (fst (collect_entries md5 source_name entries s n))
    = (rows s ++ new)%list
    /\ snd (collect_entries md5 source_name entries s n) = n + len new
    /\ len new <= len entries
    /\ Forall (fun r => source r = source_name
                        /\ selection_state r = Unselected) new.
Proof.
  revert s n. induction entries as [|t rest IH]; intros s n.
  - exists []. simpl. rewrite app_nil_r.
    repeat split; [unfold len; simpl; lia | unfold len; simpl; lia
                   | constructor].
  - cbn [collect_entries].
    pose proof (collect_entry_rows md5 source_name (at_pub t) (at_col t)
                  (entry t) s) as R.
    destruct (collect_entry md5 source_name (at_pub t) (at_col t) (entry t) s)
      as [s1 rc]. cbn [fst snd] in R.
    destruct R as [(E & -> & _)|(r & E & -> & _ & _ & _ & _ & _ & Hs & _ & F1 & F2)].
    + destruct (IH s1 n) as (new & E1 & C1 & L1 & F). exists new.
      simpl. rewrite E1, C1, E, len_cons. repeat split; try lia. exact F.
    + destruct (IH s1 (n + 1)) as (new & E1 & C1 & L1 & F).
      exists (r :: new). simpl. rewrite E1, C1, E, <- app_assoc, !len_cons.
      repeat split; try lia. constructor; [|exact F].
      split; [exact Hs|]. unfold selection_state. now rewrite F2, F1.
Qed.

(** X8.  [collect_feed] only appends: the rows the table had stay where
    they were, unchanged; the count it returns is the number of rows it
    appended, which is at most the number of entries of the feed and 0
    for a feed that fails to parse; the appended rows carry the source
    name given and start Unselected; and it keeps row ids and
    fingerprints unique. *)
Theorem collect_feed_appends (feed : option (list Timed))
        (source_name : string) (s : Store) :
  (exists new,
      rows (fst (collect_feed md5 feed source_name s))
      = (rows s ++ new)%list
      /\ snd (collect_feed md5 feed source_name s) = len new
      /\ len new <= match feed with
                    | None => 0
                    | Some entries => len entries
                    end
      /\ Forall (fun r => source r = source_name
                          /\ selection_state r = Unselected) new)
  /\ (valid s -> valid (fst (collect_feed md5 feed source_name s))).
Proof.
  split.
  - destruct feed as [entries|]; cbn [collect_feed].
    + destruct (collect_entries_spec source_name entries s 0)
        as (new & E & C & L & F).
      exists new. split; [exact E|]. split; [lia|].
      split; [exact L | exact F].
    + exists []. simpl. rewrite app_nil_r. split; [reflexivity|].
      split; [reflexivity|]. split; [unfold len; simpl; lia | constructor].
  - intro V. destruct feed as [entries|]; cbn [collect_feed]; [|exact V].
    rewrite collect_entries_run. now apply run_valid.
Qed.




End Feeds.

Lemma collect_feed_appends_witness :
  valid (fst (collect_feed (fun b => b)
                (Some [ {| entry := {| e_title := "Senate Passes Bill";
                                       e_description := "d";
                                       e_link := "http://x/1";
                                       e_published := "" |};
                           at_pub := 7; at_col := 7 |} ])
                "CNN" Store.empty)).
Proof.
  apply (proj2 (collect_feed_appends (fun b => b)
                  (Some [ {| entry := {| e_title := "Senate Passes Bill";
                                         e_description := "d";
                                         e_link := "http://x/1";
                                         e_published := "" |};
                             at_pub := 7; at_col := 7 |} ])
                  "CNN" Store.empty)).
  split; constructor.
Defined.


(** ** [collect_all] *)



Lemma sum_values_from (d : list (string * Z)) (a : Z) :
  fold_left (fun acc kv => acc + snd kv) d a = a + sum_values d.
Proof.
  unfold sum_values. revert a.
  induction d as [|kv d IH]; intro a; cbn [fold_left]; [lia|].
  rewrite (IH (a + snd kv)), (IH (0 + snd kv)). lia.
Qed.



Lemma clean_retained (clock : Z) (s : Store) :
  rows (_clean_old_articles clock s) = filter (retained clock) (rows s).
Proof.
  unfold _clean_old_articles, delete_where, with_rows. cbn [rows].
  apply filter_ext. intro r. unfold retained.
  generalize (clock - days_us ARCHIVE_DAYS) as cutoff. intro cutoff.
  rewrite (Z.leb_antisym (collected_time r) cutoff).
  destruct (posted r), (collected_time r <? cutoff); reflexivity.
Qed.

Section CollectAll.

Variable md5 : string -> string.
Variable fetch : string -> option (list Timed).

Lemma collect_feed_spec (feed : option (list Timed)) (source_name : string)
      (s : Store) :
  fst (collect_feed md5 feed source_name s)
  = run md5 (feed_ops feed source_name) s
  /\ exists new,
      rows (fst (collect_feed md5 feed source_name s))
      = (rows s ++ new)%list
      /\ snd (collect_feed md5 feed source_name s) = len new.
Proof.
  destruct feed as [entries|]; cbn [collect_feed feed_ops].
  - split; [apply collect_entries_run|].
    destruct (collect_entries_spec md5 source_name entries s 0)
      as (new & E & C & _).
    exists new. split; [exact E | lia].
  - split; [reflexivity|]. exists []. simpl. now rewrite app_nil_r.
Qed.




End CollectAll.


(** ** Statistics *)

Lemma len_filter_content (p : Row -> bool) (l : list Row) :
  len (filter (fun r => p (content r)) l) = len (filter p (map content l)).
Proof.
  induction l as [|r l IH]; [reflexivity|]. simpl.
  destruct (p (content r)); [rewrite !len_cons|]; lia.
Qed.

Lemma stats_of_content (a b : Store) :
  map content (rows a) = map content (rows b) ->
  get_stats a = get_stats b /\ get_article_count a = get_article_count b.
Proof.
  intro H. unfold get_stats, get_article_count.
  assert (L : len (rows a) = len (rows b)).
  { unfold len. rewrite <- (length_map content (rows a)), H.
    now rewrite length_map. }
  assert (U : forall p : Row -> bool,
             len (filter (fun r => p (content r)) (rows a))
             = len (filter (fun r => p (content r)) (rows b))).
  { intro p. rewrite (len_filter_content p (rows a)).
    rewrite (len_filter_content p (rows b)). now rewrite H. }
  assert (S : map source (rows a) = map source (rows b)).
  { change (map (fun r => source (content r)) (rows a)
            = map (fun r => source (content r)) (rows b)).
    rewrite <- (map_map content source (rows a)).
    rewrite <- (map_map content source (rows b)). now rewrite H. }
  split.
  - f_equal; [exact L | exact (U is_us_related) | exact (U is_excluded)
              | now rewrite S].
  - exact (U (fun r => negb (is_excluded r))).
Qed.

Lemma update_content (cond : Row -> bool) (f : Row -> Row) (s : Store) :
  (forall r, content (f r) = content r) ->
  map content (rows (update_where cond f s)) = map content (rows s).
Proof.
  intro H. unfold update_where. simpl. rewrite map_map.
  apply map_ext. intro r. destruct (cond r); auto.
Qed.

(** X11.  In the statistics, the articles that are not excluded and the
    excluded ones add up to the total; the US-related count and the
    number of distinct sources are at most the total; and a table with at
    least one row has at least one active source. *)
Theorem stats_partition (s : Store) :
  get_article_count s + excluded (get_stats s) = total_articles (get_stats s)
  /\ 0 <= us_related (get_stats s) <= total_articles (get_stats s)
  /\ 0 <= active_sources (get_stats s) <= total_articles (get_stats s)
  /\ (rows s <> [] -> 1 <= active_sources (get_stats s)).
Proof.
  unfold get_article_count, get_stats.
  cbn [total_articles us_related excluded active_sources].
  split; [|split; [|split]].
  - pose proof (filter_length is_excluded (rows s)). unfold len. lia.
  - pose proof (filter_length_le is_us_related (rows s)). unfold len. lia.
  - assert (B : forall l : list string,
               (List.length (nodup string_dec l) <= List.length l)%nat).
    { induction l as [|x l IH]; simpl; [lia|].
      destruct (in_dec string_dec x l); simpl; lia. }
    specialize (B (map source (rows s))). rewrite length_map in B.
    unfold len. lia.
  - intro N. destruct (rows s) as [|r l] eqn:E; [contradiction|].
    assert (I : In (source r) (nodup string_dec (map source (r :: l))))
      by (apply nodup_In; now left).
    destruct (nodup string_dec (map source (r :: l))); [contradiction|].
    rewrite len_cons. pose proof (len_nonneg l0). lia.
Qed.

Lemma stats_partition_witness : 1 <= active_sources (get_stats scenario2).
Proof.
  apply (proj2 (proj2 (proj2 (stats_partition scenario2)))).
  discriminate.
Defined.

(** X12.  Selecting, posting and resetting never change the statistics
    or the article count, and collecting a feed raises the total by
    exactly the count [collect_feed] returns. *)
Theorem stats_follow_collection_only (md5 : string -> string) (s : Store) :
  (forall clock clock' count hours,
      get_stats (snd (get_top_stories clock clock' count hours s))
      = get_stats s
      /\ get_article_count (snd (get_top_stories clock clock' count hours s))
         = get_article_count s)
  /\ (forall article_ids,
         get_stats (mark_as_posted article_ids s) = get_stats s
         /\ get_article_count (mark_as_posted article_ids s)
            = get_article_count s)
  /\ (get_stats (reset_selections s) = get_stats s
      /\ get_article_count (reset_selections s) = get_article_count s)
  /\ (forall feed source_name,
         total_articles (get_stats (fst (collect_feed md5 feed source_name s)))
         = total_articles (get_stats s)
           + snd (collect_feed md5 feed source_name s)).
Proof.
  split; [|split; [|split]].
  - intros. apply stats_of_content. unfold get_top_stories. cbn [snd].
    rewrite mark_stories_update. now apply update_content.
  - intros. apply stats_of_content. now apply update_content.
  - apply stats_of_content. now apply update_content.
  - intros feed source_name.
    destruct (collect_feed_spec md5 feed source_name s)
      as (_ & new & E & C).
    unfold get_stats. cbn [total_articles]. rewrite E, C, len_app. lia.
Qed.

(** ** The daily summary *)

Lemma sum_values_cons (kv : string * Z) (d : list (string * Z)) :
  sum_values (kv :: d) = snd kv + sum_values d.
Proof. unfold sum_values at 1. cbn [fold_left]. now rewrite sum_values_from. Qed.

Lemma group_counts_one (c : string) (ks : list string) :
  NoDup ks -> In c ks ->
  sum_values (map (fun k => (k, if String.eqb c k then 1 else 0)) ks) = 1.
Proof.
  induction 1 as [|k ks Hn ND IH]; [contradiction|].
  intros [->|Hin]; cbn [map]; rewrite sum_values_cons; cbn [snd].
  - rewrite String.eqb_refl.
    assert (Z0 : sum_values
                   (map (fun k => (k, if String.eqb c k then 1 else 0)) ks)
                 = 0).
    { clear IH ND. induction ks as [|k ks IH]; [reflexivity|].
      cbn [map]. rewrite sum_values_cons. cbn [snd].
      destruct (String.eqb c k) eqn:E.
      - apply String.eqb_eq in E. exfalso. apply Hn. now left.
      - rewrite IH; [lia|]. intro I. apply Hn. now right. }
    lia.
  - destruct (String.eqb c k) eqn:E.
    + apply String.eqb_eq in E. subst. contradiction.
    + rewrite (IH Hin). lia.
Qed.

Lemma group_counts_total (ks : list string) (l : list Row) :
  NoDup ks -> (forall r, In r l -> In (category r) ks) ->
  sum_values
    (map (fun c => (c, len (filter (fun r => String.eqb (category r) c) l)))
         ks)
  = len l.
Proof.
  intros ND. induction l as [|r l IH]; intro H.
  - clear. induction ks as [|k ks IH]; [reflexivity|].
    cbn [map]. rewrite sum_values_cons, IH. reflexivity.
  - rewrite len_cons, <- IH by (intros x Hx; apply H; now right).
    rewrite <- (group_counts_one (category r) ks ND) by (apply H; now left).
    clear. induction ks as [|k ks IH]; [reflexivity|].
    cbn [map]. rewrite !sum_values_cons, IH. cbn [snd filter].
    destruct (String.eqb (category r) k); [rewrite len_cons|]; lia.
Qed.

(** X13.  In the daily summary the per-category counts add up to
    [total_selected]; each category is listed once, with a count of at
    least 1; and the total is at most the number of rows marked as
    selected. *)
Theorem daily_summary_adds_up (clock : Z) (s : Store) :
  sum_values (categories (get_daily_summary clock s))
  = total_selected (get_daily_summary clock s)
  /\ NoDup (map fst (categories (get_daily_summary clock s)))
  /\ Forall (fun kv => 1 <= snd kv)
            (categories (get_daily_summary clock s))
  /\ total_selected (get_daily_summary clock s)
     <= len (filter selected_for_post (rows s)).
Proof.
  unfold get_daily_summary. cbn [categories total_selected].
  set (chosen := filter (selected_on (date_of clock)) (rows s)).
  split; [|split; [|split]].
  - apply group_counts_total; [apply NoDup_nodup|].
    intros r Hr. apply nodup_In. now apply in_map.
  - rewrite map_map. simpl. rewrite map_id. apply NoDup_nodup.
  - apply Forall_forall. intros kv Hkv. apply in_map_iff in Hkv.
    destruct Hkv as (c & <- & Hc). cbn [snd].
    apply nodup_In, in_map_iff in Hc. destruct Hc as (r & <- & Hr).
    assert (I : In r (filter (fun x => String.eqb (category x) (category r))
                             chosen)).
    { apply filter_In. split; [exact Hr | apply String.eqb_refl]. }
    destruct (filter _ chosen); [contradiction|].
    rewrite len_cons. pose proof (len_nonneg l). lia.
  - subst chosen. unfold len. apply inj_le.
    induction (rows s) as [|r l IH]; [simpl; lia|]. simpl.
    unfold selected_on at 1.
    destruct (selected_for_post r); simpl.
    + destruct (date_of (collected_time r) =? date_of clock); simpl; lia.
    + exact IH.
Qed.

(** ** The candidate query and the selector *)

Lemma outranks_asym (a b : Row) : outranks a b = true -> ranked a b.
Proof.
  unfold ranked, outranks. intro H.
  apply orb_true_iff in H. apply orb_false_iff.
  rewrite andb_false_iff, Z.ltb_ge, Z.eqb_neq, Z.ltb_ge.
  destruct H as [H|H].
  - apply Z.ltb_lt in H. split; [lia | left; lia].
  - apply andb_true_iff in H. destruct H as [E H].
    apply Z.eqb_eq in E. apply Z.ltb_lt in H. split; [lia | right; lia].
Qed.

Lemma ranked_trans (a b c : Row) : ranked a b -> ranked b c -> ranked a c.
Proof.
  unfold ranked, outranks.
  rewrite !orb_false_iff, !andb_false_iff, !Z.ltb_ge, !Z.eqb_neq.
  intros [H1 H2] [H3 H4]. split; [lia|].
  destruct (Z.eq_dec (priority_score c) (priority_score a)); [right | now left].
  destruct H2 as [H2|H2], H4 as [H4|H4]; lia.
Qed.

Lemma insert_by_in (before : Row -> Row -> bool) (x y : Row) (l : list Row) :
  In y (insert_by before x l) -> y = x \/ In y l.
Proof.
  intro H. apply (Permutation_in _ (insert_by_perm before x l)) in H.
  destruct H; auto.
Qed.

Lemma insert_ranked (x : Row) (l : list Row) :
  StronglySorted ranked l -> StronglySorted ranked (insert_by outranks x l).
Proof.
  induction 1 as [|y l S IH F]; simpl; [repeat constructor|].
  destruct (outranks y x) eqn:E.
  - constructor; [exact IH|]. apply Forall_forall. intros z Hz.
    apply insert_by_in in Hz. destruct Hz as [->|Hz].
    + now apply outranks_asym.
    + rewrite Forall_forall in F. now apply F.
  - constructor; [now constructor|]. constructor; [exact E|].
    eapply Forall_impl; [|exact F]. simpl. intros z Hz.
    now apply (ranked_trans x y z).
Qed.

Lemma sort_ranked (l : list Row) : StronglySorted ranked (sort_by outranks l).
Proof.
  unfold sort_by. induction l as [|x l IH]; simpl; [constructor|].
  now apply insert_ranked.
Qed.

Lemma sorted_split (R : Row -> Row -> Prop) (l1 l2 : list Row) :
  StronglySorted R (l1 ++ l2) ->
  StronglySorted R l1
  /\ forall a b, In a l1 -> In b l2 -> R a b.
Proof.
  induction l1 as [|x l1 IH]; simpl; intro H.
  - split; [constructor | intros a b []].
  - inversion H as [|? ? S F]; subst. destruct (IH S) as [S1 C].
    rewrite Forall_forall in F. split.
    + constructor; [exact S1|]. apply Forall_forall. intros z Hz.
      apply F. apply in_or_app. now left.
    + intros a b [->|Ha] Hb; [|now apply C].
      apply F. apply in_or_app. now right.
Qed.

Lemma query_candidates_sorted (cutoff_time : Z) (s : Store) :
  StronglySorted ranked (query_candidates cutoff_time s).
Proof.
  pose proof (sort_ranked (filter (eligible cutoff_time) (rows s))) as S.
  unfold query_candidates.
  rewrite <- (firstn_skipn 50 (sort_by outranks _)) in S.
  now apply sorted_split in S.
Qed.

(** X14.  The candidate query returns eligible rows of the table only, at
    most 50 of them, in rank order (no row is followed by one of higher
    priority score, or of equal score and later collection time), and
    they are the top of the ranking: no eligible row left out outranks a
    row returned. *)
Theorem query_candidates_top_ranked (cutoff_time : Z) (s : Store) :
  StronglySorted ranked (query_candidates cutoff_time s)
  /\ len (query_candidates cutoff_time s)
     = Z.min 50 (eligible_count cutoff_time s)
  /\ (forall q, In q (query_candidates cutoff_time s) ->
                In q (rows s) /\ eligible cutoff_time q = true)
  /\ (forall q r,
         In q (query_candidates cutoff_time s) ->
         In r (rows s) -> eligible cutoff_time r = true ->
         ~ In r (query_candidates cutoff_time s) ->
         ranked q r).
Proof.
  pose proof (sort_ranked (filter (eligible cutoff_time) (rows s))) as S.
  unfold query_candidates.
  set (l := sort_by outranks (filter (eligible cutoff_time) (rows s))) in *.
  rewrite <- (firstn_skipn 50 l) in S.
  destruct (sorted_split ranked _ _ S) as [S1 C].
  split; [exact S1|]. split; [apply query_len|].
  split; [apply query_incl|].
  intros q r Hq Hr He Hn. apply C; [exact Hq|].
  assert (I : In r l).
  { apply (Permutation_in _ (Permutation_sym (sort_by_perm outranks _))).
    apply filter_In. now split. }
  rewrite <- (firstn_skipn 50 l) in I. apply in_app_or in I.
  destruct I; [contradiction | assumption].
Qed.

Lemma query_candidates_top_ranked_witness :
  ranked (fresh_row 1 "Politics" 20 (noon - hours_us 1))
         (fresh_row 51 "Sports" 5 (noon - hours_us 1)).
Proof.
  apply (proj2 (proj2 (proj2 (query_candidates_top_ranked
                                 (noon - hours_us 24) lopsided)))).
  - vm_compute. left. reflexivity.
  - vm_compute. do 50 right. left. reflexivity.
  - vm_compute. reflexivity.
  - vm_compute. intuition discriminate.
Defined.

(** X15.  Every story [get_top_stories] returns is a row of the table
    that is US-related, not excluded and not yet selected, collected
    within the window asked for or, when that window has no candidate,
    within the last 48 hours; an excluded article is never returned,
    whatever its score. *)
Theorem top_stories_are_eligible (s : Store) (clock clock' count hours : Z)
        (r : Row) :
  In r (fst (get_top_stories clock clock' count hours s)) ->
  In r (rows s)
  /\ is_us_related r = true /\ is_excluded r = false
  /\ selected_for_post r = false
  /\ (clock - hours_us hours <= collected_time r
      \/ (query_candidates (clock - hours_us hours) s = []
          /\ clock' - hours_us 48 <= collected_time r)).
Proof.
  unfold get_top_stories, select_stories. cbn [fst]. intro H.
  apply select_incl in H.
  assert (X : exists c,
             In r (rows s) /\ eligible c r = true
             /\ (c = clock - hours_us hours
                 \/ (query_candidates (clock - hours_us hours) s = []
                     /\ c = clock' - hours_us 48))).
  { destruct (get_candidates_cases clock clock' hours s) as [[N E]|[N E]];
      rewrite E in H; apply query_incl in H; destruct H as [Hr He];
      eexists; (split; [exact Hr|]); (split; [exact He|]); auto. }
  destruct X as (c & Hin & He & Hc). unfold eligible in He.
  apply andb_true_iff in He. destruct He as [He Ht].
  apply andb_true_iff in He. destruct He as [He Hs].
  apply andb_true_iff in He. destruct He as [Hu Hx].
  apply Z.leb_le in Ht. apply negb_true_iff in Hs, Hx.
  repeat split; try assumption.
  destruct Hc as [->|[N ->]]; [left | right]; auto.
Qed.

Lemma top_stories_are_eligible_witness :
  is_excluded (fresh_row 1 "Politics" 20 (noon - hours_us 1)) = false.
Proof.
  apply (top_stories_are_eligible scenario2 noon noon 3 24
           (fresh_row 1 "Politics" 20 (noon - hours_us 1))).
  vm_compute. left. reflexivity.
Defined.

Lemma firstn_nodup (n : nat) (l : list Row) : NoDup l -> NoDup (firstn n l).
Proof.
  revert n. induction l as [|x l IH]; intros [|n] ND; simpl;
    try constructor.
  - apply NoDup_cons_iff in ND. intro Hx. apply firstn_In in Hx. tauto.
  - apply NoDup_cons_iff in ND. apply IH. tauto.
Qed.

Lemma select_nodup (candidates : list Row) (count : Z) :
  NoDup candidates -> NoDup (_select_diverse_stories candidates count).
Proof.
  intro Nc. unfold _select_diverse_stories.
  destruct (len candidates <=? count); [exact Nc|].
  pose proof (first_pass_spec count candidates [] []) as FP.
  destruct (first_pass count candidates [] []) as [sel|sel used].
  - destruct FP as (extra & -> & F & _). simpl.
    eapply NoDup_map_inv. apply F.
  - destruct FP as (extra & -> & F & _). simpl.
    destruct (fill_spec count
                (sort_by higher_priority
                   (filter (fun a => negb (row_in a extra)) candidates))
                extra) as [[k ->] _].
    apply NoDup_app.
    + eapply NoDup_map_inv. apply F.
    + apply firstn_nodup.
      eapply Permutation_NoDup;
        [apply Permutation_sym, sort_by_perm | now apply NoDup_filter].
    + intros x Hx Hy. apply firstn_In in Hy.
      apply (Permutation_in _ (sort_by_perm higher_priority _)) in Hy.
      apply filter_In in Hy. destruct Hy as [_ Hy].
      apply negb_true_iff in Hy.
      apply row_in_In in Hx. congruence.
Qed.

Lemma select_at_most (candidates : list Row) (count : Z) :
  1 <= count -> len (_select_diverse_stories candidates count) <= count.
Proof.
  intro H1. unfold _select_diverse_stories.
  destruct (len candidates <=? count) eqn:E; [now apply Z.leb_le in E|].
  pose proof (first_pass_spec count candidates [] []) as FP.
  destruct (first_pass count candidates [] []) as [sel|sel used].
  - destruct FP as (extra & -> & F & L). rewrite L; [lia|].
    unfold len. simpl. lia.
  - destruct FP as (extra & -> & F & L & _). simpl in *.
    assert (Lx : len extra <= count).
    { destruct L as [->|L]; [unfold len; simpl; lia | lia]. }
    rewrite (proj2 (fill_spec count _ extra)) by exact Lx. lia.
Qed.

Lemma distinct_keys_within {K : Type} (key : Row -> K)
      (part whole : list Row) :
  NoDup (map key whole) -> NoDup part -> incl part whole ->
  NoDup (map key part).
Proof.
  intros Nw Np Hi.
  assert (inj : forall x y, In x whole -> In y whole ->
                            key x = key y -> x = y).
  { clear Np Hi part. induction whole as [|w whole IH]; [intros x y []|].
    simpl in Nw. apply NoDup_cons_iff in Nw. destruct Nw as [Hn Nw].
    intros x y [->|Hx] [->|Hy] E; auto.
    - exfalso. apply Hn. rewrite E. now apply in_map.
    - exfalso. apply Hn. rewrite <- E. now apply in_map. }
  induction Np as [|p part Hp Np IH]; [constructor|].
  simpl. constructor.
  - rewrite in_map_iff. intros (q & E & Hq). apply Hp.
    assert (q = p); [|now subst].
    apply inj; auto; apply Hi; [now right | now left].
  - apply IH. intros x Hx. apply Hi. now right.
Qed.

(** X16.  On a table with unique row ids the Selector never returns a
    story twice, never returns more than 50 stories, and for a target
    count N >= 1 never returns more than N. *)
Theorem top_stories_bounded (s : Store) (clock clock' count hours : Z) :
  unique_ids s ->
  NoDup (map id (fst (get_top_stories clock clock' count hours s)))
  /\ len (fst (get_top_stories clock clock' count hours s)) <= 50
  /\ (1 <= count ->
      len (fst (get_top_stories clock clock' count hours s)) <= count).
Proof.
  intro U. unfold get_top_stories, select_stories. cbn [fst].
  pose proof (get_candidates_nodup clock clock' hours s U) as Nc.
  pose proof (select_nodup _ count Nc) as Ns.
  pose proof (select_incl (get_candidates clock clock' hours s) count) as Hi.
  split; [|split].
  - apply (distinct_keys_within id _ (rows s)); [exact U | exact Ns|].
    intros x Hx. apply Hi in Hx. now apply get_candidates_incl in Hx.
  - apply NoDup_incl_length in Hi; [|exact Ns].
    assert (L : len (get_candidates clock clock' hours s) <= 50).
    { destruct (get_candidates_cases clock clock' hours s)
        as [[_ ->]|[_ ->]]; rewrite query_len; lia. }
    unfold len in *. lia.
  - intro H1. now apply select_at_most.
Qed.

Lemma top_stories_bounded_witness :
  len (fst (get_top_stories noon noon 2 24 scenario2)) <= 2.
Proof.
  apply (proj2 (proj2 (top_stories_bounded scenario2 noon noon 2 24
                         ltac:(vm_compute; repeat constructor; simpl;
                               intuition discriminate))));
    lia.
Defined.

Lemma select_head (a : Row) (rest : list Row) (count : Z) :
  exists tail, _select_diverse_stories (a :: rest) count = a :: tail.
Proof.
  unfold _select_diverse_stories.
  destruct (len (a :: rest) <=? count); [now exists rest|].
  cbn [first_pass category_used existsb app].
  destruct (count <=? len [a]); [now exists []|].
  pose proof (first_pass_spec count rest [a] [category a]) as FP.
  destruct (first_pass count rest [a] [category a]) as [sel|sel used].
  - destruct FP as (extra & -> & _). now exists extra.
  - destruct FP as (extra & -> & _).
    destruct (fill_spec count
                (sort_by higher_priority
                   (filter (fun x => negb (row_in x ([a] ++ extra)))
                           (a :: rest)))
                ([a] ++ extra)) as [[k ->] _].
    simpl. eexists. reflexivity.
Qed.

(** X17.  Whenever there is a candidate, the first story the Selector
    returns is the top-ranked candidate, whatever the target count; no
    candidate outranks it. *)
Theorem top_story_leads (s : Store) (clock clock' count hours : Z) :
  hd_error (fst (get_top_stories clock clock' count hours s))
  = hd_error (get_candidates clock clock' hours s)
  /\ (forall top c,
         hd_error (fst (get_top_stories clock clock' count hours s))
         = Some top ->
         In c (get_candidates clock clock' hours s) ->
         outranks c top = false).
Proof.
  unfold get_top_stories, select_stories. cbn [fst].
  assert (H : hd_error (_select_diverse_stories
                          (get_candidates clock clock' hours s) count)
              = hd_error (get_candidates clock clock' hours s)).
  { destruct (get_candidates clock clock' hours s) as [|a rest].
    - now rewrite select_empty.
    - destruct (select_head a rest count) as [tail ->]. reflexivity. }
  split; [exact H|]. rewrite H. intros top c Ht Hc.
  assert (S : StronglySorted ranked (get_candidates clock clock' hours s)).
  { destruct (get_candidates_cases clock clock' hours s) as [[_ ->]|[_ ->]];
      apply query_candidates_sorted. }
  destruct (get_candidates clock clock' hours s) as [|a rest];
    [discriminate|].
  simpl in Ht. inversion Ht; subst. inversion S as [|? ? _ F]; subst.
  destruct Hc as [->|Hc].
  - unfold outranks. rewrite !Z.ltb_irrefl, andb_false_r. reflexivity.
  - rewrite Forall_forall in F. now apply F.
Qed.

Lemma top_story_leads_witness :
  outranks (fresh_row 4 "Sports" 12 (noon - hours_us 1))
           (fresh_row 1 "Politics" 20 (noon - hours_us 1))
  = false.
Proof.
  apply (proj2 (top_story_leads scenario2 noon noon 3 24)).
  - vm_compute. reflexivity.
  - vm_compute. right. right. left. reflexivity.
Defined.

(** X18.  A target count of 0 or less does not give an empty selection:
    with at least one candidate [_select_diverse_stories] returns exactly
    the top-ranked candidate, and the empty list only when there is no
    candidate. *)
Theorem select_nonpositive_count (candidates : list Row) (count : Z) :
  count <= 0 ->
  _select_diverse_stories candidates count
  = match candidates with
    | [] => []
    | a :: _ => [a]
    end.
Proof.
  intro H. destruct candidates as [|a rest]; [apply select_empty|].
  unfold _select_diverse_stories.
  replace (len (a :: rest) <=? count) with false
    by (symmetry; apply Z.leb_gt; rewrite len_cons;
        pose proof (len_nonneg rest); lia).
  cbn [first_pass category_used existsb app].
  replace (count <=? len [a]) with true
    by (symmetry; apply Z.leb_le; unfold len; simpl; lia).
  reflexivity.
Qed.

Lemma select_nonpositive_count_witness :
  _select_diverse_stories (rows scenario2) 0
  = [fresh_row 1 "Politics" 20 (noon - hours_us 1)].
Proof.
  apply (select_nonpositive_count (rows scenario2) 0). lia.
Defined.

(** ** The daily cycle: reset, then select *)

Lemma select_stories_rows (clock clock' count hours : Z) (a b : Store) :
  rows a = rows b ->
  select_stories clock clock' count hours a
  = select_stories clock clock' count hours b.
Proof.
  intro H. unfold select_stories, get_candidates, query_candidates.
  now rewrite H.
Qed.

Lemma key_injective {K : Type} (key : Row -> K) (l : list Row) :
  NoDup (map key l) ->
  forall x y, In x l -> In y l -> key x = key y -> x = y.
Proof.
  induction l as [|w l IH]; [intros _ x y []|].
  simpl. intro Nw. apply NoDup_cons_iff in Nw. destruct Nw as [Hn Nw].
  intros x y [->|Hx] [->|Hy] E; auto.
  - exfalso. apply Hn. rewrite E. now apply in_map.
  - exfalso. apply Hn. rewrite <- E. now apply in_map.
Qed.

Lemma reset_after_marking (ids : list Z) (s : Store) :
  posted_were_selected s ->
  rows (reset_selections
          (update_where (fun r => id_in (id r) ids) (set_selected true)
                        (reset_selections s)))
  = rows (reset_selections s).
Proof.
  intro P. unfold reset_selections, update_where. simpl.
  rewrite !map_map. apply map_ext_in. intros r Hr.
  specialize (P r Hr).
  destruct r as [i h t d l so c p ct ps us ex sel po]. simpl in *.
  destruct po; simpl.
  - rewrite P by reflexivity. destruct (id_in i ids); reflexivity.
  - destruct (id_in i ids); reflexivity.
Qed.

(** X19.  The daily cycle resets the selections and then selects.  On a
    table where only selected stories were ever marked as posted, doing
    so again before anything is posted picks the same stories: a reset
    after the selection gives back the rows the first reset gave, so the
    second selection at the same clock returns the same list.  With
    unique row ids, after the cycle the rows in state Selected are
    exactly the rows whose ids were returned. *)
Theorem daily_reselection_repeats (s : Store) (clock clock' count hours : Z) :
  posted_were_selected s ->
  rows (reset_selections (snd (reselect clock clock' count hours s)))
  = rows (reset_selections s)
  /\ fst (reselect clock clock' count hours
            (snd (reselect clock clock' count hours s)))
     = fst (reselect clock clock' count hours s)
  /\ (unique_ids s ->
      forall r', In r' (rows (snd (reselect clock clock' count hours s))) ->
                 (selection_state r' = Selected
                  <-> In (id r')
                         (map id (fst (reselect clock clock' count hours s))))).
Proof.
  intro P. unfold reselect, get_top_stories. cbn [fst snd].
  set (sel := select_stories clock clock' count hours (reset_selections s)).
  rewrite mark_stories_update.
  assert (A : rows (reset_selections
                      (update_where (fun r => id_in (id r) (map id sel))
                                    (set_selected true) (reset_selections s)))
              = rows (reset_selections s))
    by now apply reset_after_marking.
  split; [exact A|]. split; [now apply select_stories_rows|].
  intros U r' Hr'. unfold update_where, reset_selections in Hr'.
  simpl in Hr'. rewrite map_map in Hr'. apply in_map_iff in Hr'.
  destruct Hr' as (r & <- & Hr).
  assert (Hsel : forall x, In x sel ->
                           exists r0, In r0 (rows s)
                                      /\ x = (if negb (posted r0)
                                              then set_selected false r0
                                              else r0)
                                      /\ selected_for_post x = false).
  { intros x Hx. subst sel. unfold select_stories in Hx.
    apply select_incl, get_candidates_incl in Hx. destruct Hx as [Hx Hs].
    unfold reset_selections, update_where in Hx. simpl in Hx.
    apply in_map_iff in Hx. destruct Hx as (r0 & E & H0).
    exists r0. auto. }
  specialize (P r Hr).
  destruct (id_in (id (if negb (posted r) then set_selected false r else r))
                  (map id sel)) eqn:E.
  - assert (I : In (id r) (map id sel)).
    { apply id_in_In in E. now destruct (posted r). }
    assert (Np : posted r = false).
    { apply in_map_iff in I. destruct I as (x & Ex & Hx).
      destruct (Hsel x Hx) as (r0 & H0 & -> & Hs).
      assert (r0 = r).
      { apply (key_injective id (rows s) U); auto.
        rewrite <- Ex. now destruct (posted r0). }
      subst r0. destruct (posted r) eqn:Pr; [|reflexivity].
      simpl in Hs. rewrite P in Hs by reflexivity. discriminate. }
    rewrite Np. simpl. unfold selection_state. simpl. rewrite Np.
    split; [intros _; exact I | reflexivity].
  - assert (N : ~ In (id r) (map id sel)).
    { intro I. apply id_in_In in I.
      destruct (posted r); simpl in E; congruence. }
    split; [|intro I; exfalso; apply N; now destruct (posted r)].
    unfold selection_state.
    destruct (posted r) eqn:Pr; simpl; rewrite ?Pr; simpl; discriminate.
Qed.

Lemma daily_reselection_repeats_witness :
  fst (reselect noon noon 3 24 (snd (reselect noon noon 3 24 scenario2)))
  = fst (reselect noon noon 3 24 scenario2).
Proof.
  apply (proj1 (proj2 (daily_reselection_repeats scenario2 noon noon 3 24
                         ltac:(intros r Hr Hp; vm_compute in Hr;
                               repeat (destruct Hr as [<-|Hr];
                                       [discriminate Hp|]);
                               contradiction)))).
Defined.

(** ** Marking in batches *)

Lemma store_eta (a b : Store) : rows a = rows b -> seq a = seq b -> a = b.
Proof. destruct a, b. simpl. now intros -> ->. Qed.

Lemma id_in_ext (ids ids' : list Z) (x : Z) :
  (forall y, In y ids <-> In y ids') -> id_in x ids = id_in x ids'.
Proof.
  intro H. destruct (id_in x ids) eqn:E, (id_in x ids') eqn:E';
    try reflexivity.
  - apply id_in_In, H, id_in_In in E. congruence.
  - apply id_in_In, H, id_in_In in E'. congruence.
Qed.

(** X20.  Marking ids as posted in two calls is the same as marking them
    in one call with both lists; the order of the ids and repetitions
    among them do not matter; and an empty id list changes nothing. *)
Theorem mark_as_posted_batches (ids1 ids2 : list Z) (s : Store) :
  mark_as_posted ids2 (mark_as_posted ids1 s)
  = mark_as_posted (ids1 ++ ids2) s
  /\ (forall ids',
         (forall x, In x ids1 <-> In x ids') ->
         mark_as_posted ids1 s = mark_as_posted ids' s)
  /\ mark_as_posted [] s = s.
Proof.
  unfold mark_as_posted, update_where, with_rows. simpl.
  split; [|split].
  - f_equal. rewrite map_map. apply map_ext. intro r.
    unfold id_in. rewrite existsb_app.
    destruct (existsb (Z.eqb (id r)) ids1) eqn:E1; simpl.
    + now destruct (existsb (Z.eqb (id r)) ids2).
    + reflexivity.
  - intros ids' H. f_equal. apply map_ext. intro r.
    now rewrite (id_in_ext ids1 ids' (id r) H).
  - apply store_eta; [|reflexivity]. simpl. apply map_id.
Qed.

Lemma mark_as_posted_batches_witness :
  mark_as_posted [1; 2] scenario2 = mark_as_posted [2; 1; 2] scenario2.
Proof.
  apply (proj1 (proj2 (mark_as_posted_batches [1; 2] [] scenario2))).
  intro x. simpl. tauto.
Defined.

(** ** Retention *)

Lemma filter_absorbs (p q : Row -> bool) (l : list Row) :
  (forall r, q r = true -> p r = true) ->
  filter q (filter p l) = filter q l.
Proof.
  intro H. induction l as [|r l IH]; simpl; [reflexivity|].
  destruct (p r) eqn:Ep; simpl.
  - now rewrite IH.
  - rewrite IH. destruct (q r) eqn:Eq; [|reflexivity].
    apply H in Eq. congruence.
Qed.

Lemma filter_map_swap (p : Row -> bool) (g : Row -> Row) (l : list Row) :
  (forall r, p (g r) = p r) ->
  filter p (map g l) = map g (filter p l).
Proof.
  intro H. induction l as [|r l IH]; simpl; [reflexivity|].
  rewrite H. destruct (p r); simpl; now rewrite IH.
Qed.

(** X21.  After the purge the table holds exactly the rows that were
    posted or were collected no more than [ARCHIVE_DAYS] days before the
    purge's clock, in their old order; a selected row that is not posted
    is purged like any other.  A purge followed by a later purge leaves
    what the later purge alone leaves, and purging and resetting the
    selections commute. *)
Theorem clean_old_articles_keeps (clock : Z) (s : Store) :
  (forall r, In r (rows (_clean_old_articles clock s))
             <-> In r (rows s)
                 /\ (posted r = true
                     \/ clock - days_us ARCHIVE_DAYS <= collected_time r))
  /\ (forall clock', clock <= clock' ->
                     _clean_old_articles clock' (_clean_old_articles clock s)
                     = _clean_old_articles clock' s)
  /\ rows (_clean_old_articles clock (reset_selections s))
     = rows (reset_selections (_clean_old_articles clock s)).
Proof.
  split; [|split].
  - intro r. rewrite clean_retained, filter_In. unfold retained.
    rewrite orb_true_iff, Z.leb_le. tauto.
  - intros clock' H. apply store_eta; [|reflexivity].
    rewrite !clean_retained. apply filter_absorbs.
    intro r. unfold retained. rewrite !orb_true_iff, !Z.leb_le.
    unfold days_us. intros [Hp|Hc]; [now left | right; lia].
  - rewrite clean_retained. unfold reset_selections, update_where.
    cbn [rows with_rows]. rewrite clean_retained.
    apply filter_map_swap. intro r. unfold retained.
    now destruct (negb (posted r)).
Qed.

Lemma clean_old_articles_keeps_witness :
  _clean_old_articles (noon + days_us 9)
                      (_clean_old_articles (noon + days_us 8) scenario2)
  = _clean_old_articles (noon + days_us 9) scenario2.
Proof.
  apply (proj1 (proj2 (clean_old_articles_keeps (noon + days_us 8)
                         scenario2))).
  apply Z.leb_le. vm_compute. reflexivity.
Defined.

(** ** The order of the second pass *)




(** ** C5: ingesting a pair twice *)







